(** * The prompt-validation gateway (index.js), embedded and verified

    The gateway is a JavaScript Lambda handler.  Its functions are embedded
    as programs over a small effect signature: the collaborators of the
    code (the Bedrock client, [fetch], the console and the clock) are
    effects answered by a host, and every call to one of them is recorded
    in a history.  Straight-line [async] code is run sequentially;
    [Promise.all] is run by a scheduler that completes the pending calls in
    an arbitrary order. *)

From Stdlib Require Import ZArith NArith List String Ascii Lia.
From stdpp Require Import base list.
Import ListNotations.

Local Open Scope Z_scope.
Local Open Scope list_scope.
Set Warnings "-register-all".

(** ** JavaScript strings

    A JavaScript string is a sequence of UTF-16 code units; [length],
    [substring] and [+] act on code units. *)

Abbreviation jsstring := (list N).

Fixpoint lit (s : string) : jsstring :=
  match s with
  | EmptyString => []
  | String c rest => N_of_ascii c :: lit rest
  end.

Arguments lit : simpl never.

(** [a.join(sep)] on an array of strings. *)
Fixpoint join (sep : jsstring) (parts : list jsstring) : jsstring :=
  match parts with
  | [] => []
  | [p] => p
  | p :: rest => p ++ sep ++ join sep rest
  end.

(** [s.substring(0, n)]. *)
Definition substring0 (n : nat) (s : jsstring) : jsstring := take n s.

Definition jsstring_eqb (s t : jsstring) : bool := bool_decide (s = t).

(** ** Thrown values and completions *)

Record JsError := mkError { error_name : jsstring; error_message : jsstring }.

Definition TypeError (msg : string) : JsError := mkError (lit "TypeError") (lit msg).

Inductive Completion (A : Type) : Type :=
| Normal (a : A)
| Thrown (e : JsError).
Arguments Normal {A} a.
Arguments Thrown {A} e.

Definition cbind {A B} (c : Completion A) (f : A -> Completion B) : Completion B :=
  match c with
  | Normal a => f a
  | Thrown e => Thrown e
  end.

Notation "x <~ c ;; k" := (cbind c (fun x => k))
  (at level 100, c at next level, right associativity).

Fixpoint cmapM {A B} (f : A -> Completion B) (l : list A) : Completion (list B) :=
  match l with
  | [] => Normal []
  | a :: rest => b <~ f a ;; bs <~ cmapM f rest ;; Normal (b :: bs)
  end.

Section Gateway.

(** The numbers of the runtime (IEEE-754 doubles) stay abstract: the code
    only converts lengths and indices to numbers, tests numbers for
    truthiness and prints them. *)
Context {number : Type}.

(** ** JSON values, as [JSON.parse] returns them.  An object keeps its
    properties in insertion order, each key once. *)
Inductive json : Type :=
| JNull
| JBool (b : bool)
| JNum (n : number)
| JStr (s : jsstring)
| JArr (items : list json)
| JObj (props : list (jsstring * json)).

(** A JavaScript value of the program: [None] is [undefined]. *)
Abbreviation value := (option json).

Fixpoint lookup_prop (key : jsstring) (props : list (jsstring * json)) : value :=
  match props with
  | [] => None
  | (k, v) :: rest => if jsstring_eqb k key then Some v else lookup_prop key rest
  end.

(** [v.key] for the property names the source reads ([prompt], [prompts],
    [action], [assessments], [type], [guardrailCoverage]): none of them is
    a property of a primitive or of an array, and reading a property of
    [null] throws. *)
Definition getProp (v : json) (key : string) : Completion value :=
  match v with
  | JNull => Thrown (TypeError "Cannot read properties of null")
  | JObj props => Normal (lookup_prop (lit key) props)
  | _ => Normal None
  end.

(** The inbound API Gateway event. *)
Record Event := mkEvent {
  httpMethod : option jsstring;
  path : option jsstring;
  rawPath : option jsstring;
  requestContext_http_method : option jsstring;
  headers : option (list (jsstring * jsstring));
  body : option jsstring
}.

(** The response envelope. *)
Record Response := mkResponse {
  statusCode : Z;
  response_headers : list (jsstring * jsstring);
  response_body : jsstring
}.

(** The second argument of [fetch]. *)
Record RequestInit := mkRequestInit {
  init_method : jsstring;
  init_headers : list (jsstring * jsstring);
  init_body : option jsstring
}.

(** What [fetch] resolves to: the status and the outcome of
    [response.text()]. *)
Record FetchResponse := mkFetchResponse {
  status : Z;
  text : Completion jsstring
}.

Inductive ConsoleArg : Type :=
| ArgValue (v : json)
| ArgError (e : JsError)
| ArgEvent (ev : Event).

(** A line written by [console.log] or [console.error]. *)
Inductive ConsoleLine : Type :=
| Log (label : jsstring) (arg : ConsoleArg)
| Error (label : jsstring) (arg : ConsoleArg).

(** The calls the gateway makes to its collaborators. *)
Inductive Call : Type :=
| Console (line : ConsoleLine)
| BedrockSend (command : json)
| Fetch (url : jsstring) (init : RequestInit).

Abbreviation History := (list Call).

(** The host: the builtins of the runtime and the two external services.
    A service answers a call knowing everything that happened before. *)
Class Host := mkHost {
  number_of_nat : nat -> number;
  number_truthy : number -> bool;
  Number_toString : number -> jsstring;
  JSON_parse : jsstring -> Completion json;
  JSON_stringify : json -> jsstring;
  Date_toISOString : History -> jsstring;
  Date_now : History -> number;
  bedrockClient_send : History -> json -> Completion json;
  fetch : History -> jsstring -> RequestInit -> Completion FetchResponse
}.

Context {host : Host}.

(** ** Truthiness and string conversion *)

Definition truthy (v : value) : bool :=
  match v with
  | None => false
  | Some JNull => false
  | Some (JBool b) => b
  | Some (JNum n) => number_truthy n
  | Some (JStr s) => negb (jsstring_eqb s [])
  | Some (JArr _) => true
  | Some (JObj _) => true
  end.

Definition truthy_string (s : option jsstring) : bool :=
  match s with
  | Some (_ :: _) => true
  | _ => false
  end.

(** [typeof v]. *)
Definition typeof (v : value) : string :=
  match v with
  | None => "undefined"
  | Some JNull => "object"
  | Some (JBool _) => "boolean"
  | Some (JNum _) => "number"
  | Some (JStr _) => "string"
  | Some (JArr _) => "object"
  | Some (JObj _) => "object"
  end.

Definition Array_isArray (v : value) : bool :=
  match v with
  | Some (JArr _) => true
  | _ => false
  end.

(** The characters of a value that is a string, the elements of a value
    that is an array. *)
Definition string_of (v : value) : jsstring :=
  match v with
  | Some (JStr s) => s
  | _ => []
  end.

Definition elements_of (v : value) : list json :=
  match v with
  | Some (JArr items) => items
  | _ => []
  end.

Definition has_own (key : string) (props : list (jsstring * json)) : bool :=
  match lookup_prop (lit key) props with Some _ => true | None => false end.

(** [ToString] of a JSON value, as a template literal applies it.  An
    array joins its elements with a comma, [null] printing as nothing; an
    object prints as [[object Object]] unless an own [toString] property,
    which is never callable here, hides the inherited method. *)
Fixpoint ToString_json (v : json) : Completion jsstring :=
  match v with
  | JNull => Normal (lit "null")
  | JBool true => Normal (lit "true")
  | JBool false => Normal (lit "false")
  | JNum n => Normal (Number_toString n)
  | JStr s => Normal s
  | JArr items =>
      parts <~ (fix elements (l : list json) : Completion (list jsstring) :=
                  match l with
                  | [] => Normal []
                  | JNull :: rest => ps <~ elements rest ;; Normal ([] :: ps)
                  | x :: rest =>
                      p <~ ToString_json x ;; ps <~ elements rest ;; Normal (p :: ps)
                  end) items ;;
      Normal (join (lit ",") parts)
  | JObj props =>
      if has_own "toString" props
      then Thrown (TypeError "Cannot convert object to primitive value")
      else Normal (lit "[object Object]")
  end.

Definition ToString (v : value) : Completion jsstring :=
  match v with
  | None => Normal (lit "undefined")
  | Some j => ToString_json j
  end.

(** ** Programs

    An [async] function is a tree of effects.  [AwaitSend] and
    [AwaitFetch] are the two [await] points on an external service: the
    continuation receives how the call settled. *)
Inductive Prog (A : Type) : Type :=
| Ret (a : A)
| Throw (e : JsError)
| Output (line : ConsoleLine) (k : Prog A)
| NewDate (k : jsstring -> Prog A)
| DateNow (k : number -> Prog A)
| AwaitSend (command : json) (k : Completion json -> Prog A)
| AwaitFetch (url : jsstring) (init : RequestInit)
    (k : Completion FetchResponse -> Prog A).
Arguments Ret {A} a.
Arguments Throw {A} e.
Arguments Output {A} line k.
Arguments NewDate {A} k.
Arguments DateNow {A} k.
Arguments AwaitSend {A} command k.
Arguments AwaitFetch {A} url init k.

Fixpoint bind {A B} (p : Prog A) (f : A -> Prog B) : Prog B :=
  match p with
  | Ret a => f a
  | Throw e => Throw e
  | Output l k => Output l (bind k f)
  | NewDate k => NewDate (fun t => bind (k t) f)
  | DateNow k => DateNow (fun t => bind (k t) f)
  | AwaitSend c k => AwaitSend c (fun o => bind (k o) f)
  | AwaitFetch u i k => AwaitFetch u i (fun o => bind (k o) f)
  end.

Notation "x <- c ;; k" := (bind c (fun x => k))
  (at level 100, c at next level, right associativity).

(** [try { p } catch (error) { handler error }]. *)
Fixpoint try_catch {A} (p : Prog A) (handler : JsError -> Prog A) : Prog A :=
  match p with
  | Ret a => Ret a
  | Throw e => handler e
  | Output l k => Output l (try_catch k handler)
  | NewDate k => NewDate (fun t => try_catch (k t) handler)
  | DateNow k => DateNow (fun t => try_catch (k t) handler)
  | AwaitSend c k => AwaitSend c (fun o => try_catch (k o) handler)
  | AwaitFetch u i k => AwaitFetch u i (fun o => try_catch (k o) handler)
  end.

(** A pure computation that may throw, and how [await] resumes. *)
Definition lift {A} (c : Completion A) : Prog A :=
  match c with
  | Normal a => Ret a
  | Thrown e => Throw e
  end.

Definition console_log (label : jsstring) (arg : ConsoleArg) : Prog unit :=
  Output (Log label arg) (Ret tt).

Definition console_error (label : jsstring) (arg : ConsoleArg) : Prog unit :=
  Output (Error label arg) (Ret tt).

(** Sequential execution: every [await] settles before the code after it
    runs.  The service sees the history including its own call. *)
Fixpoint run {A} (p : Prog A) (h : History) : Completion A * History :=
  match p with
  | Ret a => (Normal a, h)
  | Throw e => (Thrown e, h)
  | Output l k => run k (h ++ [Console l])
  | NewDate k => run (k (Date_toISOString h)) h
  | DateNow k => run (k (Date_now h)) h
  | AwaitSend c k =>
      let h' := h ++ [BedrockSend c] in
      run (k (bedrockClient_send h' c)) h'
  | AwaitFetch u i k =>
      let h' := h ++ [Fetch u i] in
      run (k (fetch h' u i)) h'
  end.

(** ** The source, function by function *)

Record Messages := mkMessages { msg_blocked : jsstring; msg_error : jsstring }.

Record ModerationConfig := mkConfig {
  guardrailId : jsstring;
  guardrailVersion : jsstring;
  videoServiceUrl : jsstring;
  messages : Messages;
  enableLogging : bool
}.

Definition MODERATION_CONFIG : ModerationConfig := {|
  guardrailId := lit "your-guardrail-id";
  guardrailVersion := lit "DRAFT";
  videoServiceUrl := lit "https://your-video-service.com/generate";
  messages := {|
    msg_blocked := lit "Content violates our community guidelines";
    msg_error := lit "Unable to validate content at this time" |};
  enableLogging := true
|}.

Definition createResponse (statusCode : Z) (body : json) : Response := {|
  statusCode := statusCode;
  response_headers := [
    (lit "Content-Type", lit "application/json");
    (lit "Access-Control-Allow-Origin", lit "*");
    (lit "Access-Control-Allow-Headers", lit "Content-Type");
    (lit "Access-Control-Allow-Methods", lit "POST, GET, OPTIONS") ];
  response_body := JSON_stringify body
|}.

Fixpoint lookup_header (key : jsstring) (hs : list (jsstring * jsstring))
  : option jsstring :=
  match hs with
  | [] => None
  | (k, v) :: rest => if jsstring_eqb k key then Some v else lookup_header key rest
  end.

(** [originalEvent.headers?.authorization]. *)
Definition authorization (originalEvent : Event) : option jsstring :=
  match headers originalEvent with
  | None => None
  | Some hs => lookup_header (lit "authorization") hs
  end.

Definition await_fetch (url : jsstring) (init : RequestInit) : Prog FetchResponse :=
  AwaitFetch url init lift.

Definition await_send (command : json) : Prog json :=
  AwaitSend command lift.

Definition forwardToVideoService (originalEvent : Event) : Prog Response :=
  try_catch
    (response <- await_fetch (videoServiceUrl MODERATION_CONFIG) {|
         init_method := lit "POST";
         init_headers :=
           (lit "Content-Type", lit "application/json") ::
           (if truthy_string (authorization originalEvent)
            then [(lit "Authorization", default [] (authorization originalEvent))]
            else []);
         init_body := body originalEvent |} ;;
     responseData <- lift (text response) ;;
     let parsedData :=
       match JSON_parse responseData with
       | Normal data => data
       | Thrown _ => JObj [(lit "message", JStr responseData)]
       end in
     Ret (createResponse (status response) parsedData))
    (fun error =>
       _ <- console_error (lit "Error forwarding to video service:") (ArgError error) ;;
       Ret (createResponse 502 (JObj [
         (lit "success", JBool false);
         (lit "message", JStr (lit "Video service unavailable"));
         (lit "error", JStr (lit "Failed to connect to video generation service")) ]))).

(** [logRequest] is only called with a string prompt, so
    [prompt?.length || 0] is the length of that string. *)
Definition logRequest (prompt : jsstring) (result : jsstring) (reason : jsstring)
  : Prog unit :=
  if negb (enableLogging MODERATION_CONFIG) then Ret tt
  else
    NewDate (fun iso =>
    DateNow (fun now =>
    console_log (lit "[" ++ iso ++ lit "] Validation Result:")
      (ArgValue (JObj [
        (lit "promptLength", JNum (number_of_nat (length prompt)));
        (lit "result", JStr result);
        (lit "reason", JStr reason);
        (lit "timestamp", JNum now) ])))).

Record Verdict := mkVerdict {
  allowed : bool;
  reason : jsstring;
  details : value;
  verdict_error : option jsstring
}.

Definition ApplyGuardrailCommand (input : json) : json := input.

(** The arrow function mapped over [response.assessments]:
    [`${assessment.type}: ${assessment.guardrailCoverage?.type || 'unknown'}`]. *)
Definition assessment_descriptor (assessment : json) : Completion jsstring :=
  type <~ getProp assessment "type" ;;
  shown_type <~ ToString type ;;
  coverage <~ getProp assessment "guardrailCoverage" ;;
  coverage_type <~ match coverage with
                   | None | Some JNull => Normal None
                   | Some g => getProp g "type"
                   end ;;
  shown_coverage <~ ToString (if truthy coverage_type then coverage_type
                              else Some (JStr (lit "unknown"))) ;;
  Normal (shown_type ++ lit ": " ++ shown_coverage).

(** [response.assessments?.map(...).join(', ') || 'Policy violation']. *)
Definition reasons_of (assessments : value) : Completion jsstring :=
  joined <~ match assessments with
            | None | Some JNull => Normal None
            | Some (JArr items) =>
                parts <~ cmapM assessment_descriptor items ;;
                Normal (Some (join (lit ", ") parts))
            | Some _ => Thrown (TypeError "response.assessments.map is not a function")
            end ;;
  Normal (if truthy_string joined then default [] joined else lit "Policy violation").

Definition is_intervened (action : value) : bool :=
  match action with
  | Some (JStr s) => jsstring_eqb s (lit "GUARDRAIL_INTERVENED")
  | _ => false
  end.

(** The command [validatePrompt] builds for a prompt. *)
Definition guardrail_command (prompt : json) : json :=
  ApplyGuardrailCommand (JObj [
    (lit "guardrailIdentifier", JStr (guardrailId MODERATION_CONFIG));
    (lit "guardrailVersion", JStr (guardrailVersion MODERATION_CONFIG));
    (lit "source", JStr (lit "INPUT"));
    (lit "content", JArr [JObj [(lit "text", JObj [(lit "text", prompt)])]]) ]).

Definition validatePrompt (prompt : json) : Prog Verdict :=
  try_catch
    (let command := guardrail_command prompt in
     response <- await_send command ;;
     action <- lift (getProp response "action") ;;
     if is_intervened action then
       assessments <- lift (getProp response "assessments") ;;
       reasons <- lift (reasons_of assessments) ;;
       Ret {| allowed := false; reason := reasons;
              details := assessments; verdict_error := None |}
     else
       Ret {| allowed := true; reason := lit "Content approved";
              details := None; verdict_error := None |})
    (fun error =>
       _ <- console_error (lit "Guardrails API Error:") (ArgError error) ;;
       Ret {| allowed := false; reason := lit "Validation service unavailable";
              details := None; verdict_error := Some (error_message error) |}).

(** [event.body || '{}']. *)
Definition request_body (event : Event) : jsstring :=
  if truthy_string (body event) then default [] (body event) else lit "{}".

Definition handleValidation (event : Event) : Prog Response :=
  try_catch
    (body <- lift (JSON_parse (request_body event)) ;;
     prompt <- lift (getProp body "prompt") ;;
     if negb (truthy prompt) || negb (String.eqb (typeof prompt) "string") then
       Ret (createResponse 400 (JObj [
         (lit "success", JBool false);
         (lit "message",
          JStr (lit "Invalid request: prompt is required and must be a string")) ]))
     else
       let prompt := string_of prompt in
       if (length prompt =? 0)%nat then
         Ret (createResponse 400 (JObj [
           (lit "success", JBool false);
           (lit "message", JStr (lit "Invalid request: prompt cannot be empty")) ]))
       else
         validation <- validatePrompt (JStr prompt) ;;
         if allowed validation then
           _ <- logRequest prompt (lit "ALLOWED") (reason validation) ;;
           forwardToVideoService event
         else
           _ <- logRequest prompt (lit "BLOCKED") (reason validation) ;;
           Ret (createResponse 422 (JObj [
             (lit "success", JBool false);
             (lit "allowed", JBool false);
             (lit "message", JStr (msg_blocked (messages MODERATION_CONFIG)));
             (lit "details", JObj [
                (lit "reason", JStr (reason validation));
                (lit "assessments",
                 if truthy (details validation)
                 then default JNull (details validation)
                 else JArr []) ]) ])))
    (fun error =>
       _ <- console_error (lit "Validation Error:") (ArgError error) ;;
       Ret (createResponse 500 (JObj [
         (lit "success", JBool false);
         (lit "allowed", JBool false);
         (lit "message", JStr (msg_error (messages MODERATION_CONFIG)));
         (lit "error", JStr (lit "Internal server error")) ]))).

(** ** Concurrency: [Promise.all]

    An [async] call runs synchronously up to its first [await] and is
    then suspended on the pending call; the service settles pending calls
    in an order of its own. *)
Inductive Task (A : Type) : Type :=
| WaitingSend (command : json) (k : Completion json -> Prog A)
| WaitingFetch (url : jsstring) (init : RequestInit)
    (k : Completion FetchResponse -> Prog A)
| Settled (c : Completion A).
Arguments WaitingSend {A} command k.
Arguments WaitingFetch {A} url init k.
Arguments Settled {A} c.

(** Run a program up to its next [await]; the call is issued. *)
Fixpoint advance {A} (p : Prog A) (h : History) : Task A * History :=
  match p with
  | Ret a => (Settled (Normal a), h)
  | Throw e => (Settled (Thrown e), h)
  | Output l k => advance k (h ++ [Console l])
  | NewDate k => advance (k (Date_toISOString h)) h
  | DateNow k => advance (k (Date_now h)) h
  | AwaitSend c k => (WaitingSend c k, h ++ [BedrockSend c])
  | AwaitFetch u i k => (WaitingFetch u i k, h ++ [Fetch u i])
  end.

(** The pending call of a task settles and the task runs on. *)
Definition resume {A} (t : Task A) (h : History) : Task A * History :=
  match t with
  | WaitingSend c k => advance (k (bedrockClient_send h c)) h
  | WaitingFetch u i k => advance (k (fetch h u i)) h
  | Settled c => (Settled c, h)
  end.

(** [array.map(async ...)]: the calls start in index order. *)
Fixpoint start_all {A} (ps : list (Prog A)) (h : History) : list (Task A) * History :=
  match ps with
  | [] => ([], h)
  | p :: rest =>
      let '(t, h1) := advance p h in
      let '(ts, h2) := start_all rest h1 in
      (t :: ts, h2)
  end.

Fixpoint first_rejection {A} (ts : list (Task A)) : option JsError :=
  match ts with
  | [] => None
  | Settled (Thrown e) :: _ => Some e
  | _ :: rest => first_rejection rest
  end.

Fixpoint all_fulfilled {A} (ts : list (Task A)) : option (list A) :=
  match ts with
  | [] => Some []
  | Settled (Normal a) :: rest =>
      match all_fulfilled rest with
      | Some values => Some (a :: values)
      | None => None
      end
  | _ :: _ => None
  end.

(** [Promise.all(tasks)].  It rejects as soon as one task has rejected,
    fulfils with the values in index order once every task has fulfilled,
    and otherwise waits for the next pending call to settle: [schedule]
    lists the indices of the tasks in the order their calls settle.  [None]
    is a promise that never settles. *)
Fixpoint Promise_all {A} (schedule : list nat) (ts : list (Task A)) (h : History)
  : option (Completion (list A)) * History :=
  match first_rejection ts with
  | Some e => (Some (Thrown e), h)
  | None =>
      match all_fulfilled ts with
      | Some values => (Some (Normal values), h)
      | None =>
          match schedule with
          | [] => (None, h)
          | i :: rest =>
              match ts !! i with
              | Some t =>
                  let '(t', h') := resume t h in
                  Promise_all rest (<[i := t']> ts) h'
              | None => Promise_all rest ts h
              end
          end
      end
  end.

(** Code that awaits whole [async] calls, one at a time or joined by
    [Promise.all]. *)
Inductive Proc (A : Type) : Type :=
| Return (a : A)
| Raise (e : JsError)
| Await {B : Type} (p : Prog B) (k : Completion B -> Proc A)
| AwaitAll {B : Type} (tasks : list (Prog B)) (k : Completion (list B) -> Proc A).
Arguments Return {A} a.
Arguments Raise {A} e.
Arguments Await {A B} p k.
Arguments AwaitAll {A B} tasks k.

Fixpoint bindP {A B} (p : Proc A) (f : A -> Proc B) : Proc B :=
  match p with
  | Return a => f a
  | Raise e => Raise e
  | Await q k => Await q (fun o => bindP (k o) f)
  | AwaitAll ts k => AwaitAll ts (fun o => bindP (k o) f)
  end.

Notation "x <-- c ;; k" := (bindP c (fun x => k))
  (at level 100, c at next level, right associativity).

Fixpoint try_catchP {A} (p : Proc A) (handler : JsError -> Proc A) : Proc A :=
  match p with
  | Return a => Return a
  | Raise e => handler e
  | Await q k => Await q (fun o => try_catchP (k o) handler)
  | AwaitAll ts k => AwaitAll ts (fun o => try_catchP (k o) handler)
  end.

Definition liftP {A} (c : Completion A) : Proc A :=
  match c with
  | Normal a => Return a
  | Thrown e => Raise e
  end.

Definition await {A} (p : Prog A) : Proc A := Await p liftP.

Definition await_all {A} (tasks : list (Prog A)) : Proc (list A) := AwaitAll tasks liftP.

Fixpoint runP {A} (schedule : list nat) (p : Proc A) (h : History)
  : option (Completion A) * History :=
  match p with
  | Return a => (Some (Normal a), h)
  | Raise e => (Some (Thrown e), h)
  | Await q k =>
      let '(c, h') := run q h in
      runP schedule (k c) h'
  | AwaitAll ps k =>
      let '(ts, h1) := start_all ps h in
      match Promise_all schedule ts h1 with
      | (Some c, h2) => runP schedule (k c) h2
      | (None, h2) => (None, h2)
      end
  end.

(** ** Batch validation and the router *)

(** One element of the [results] array. *)
Record BatchResult := mkBatchResult {
  result_index : nat;
  result_prompt : jsstring;
  result_allowed : bool;
  result_reason : jsstring
}.

Definition json_of_result (r : BatchResult) : json :=
  JObj [
    (lit "index", JNum (number_of_nat (result_index r)));
    (lit "prompt", JStr (result_prompt r));
    (lit "allowed", JBool (result_allowed r));
    (lit "reason", JStr (result_reason r)) ].

(** [prompt.substring(0, 100) + (prompt.length > 100 ? '...' : '')]: only
    a string has a [substring] method. *)
Definition preview (prompt : json) : Completion jsstring :=
  match prompt with
  | JStr s =>
      Normal (substring0 100 s ++ (if (100 <? length s)%nat then lit "..." else []))
  | JNull => Thrown (TypeError "Cannot read properties of null")
  | _ => Thrown (TypeError "prompt.substring is not a function")
  end.

(** The [async (prompt, index) => ...] callback of the batch. *)
Definition batch_callback (index : nat) (prompt : json) : Prog BatchResult :=
  validation <- validatePrompt prompt ;;
  shown <- lift (preview prompt) ;;
  Ret {| result_index := index;
         result_prompt := shown;
         result_allowed := allowed validation;
         result_reason := reason validation |}.

Definition batch_payload (prompts : list json) (results : list BatchResult) : json :=
  JObj [
    (lit "success", JBool true);
    (lit "results", JArr (map json_of_result results));
    (lit "summary", JObj [
       (lit "total", JNum (number_of_nat (length prompts)));
       (lit "allowed",
        JNum (number_of_nat (length (List.filter result_allowed results))));
       (lit "blocked",
        JNum (number_of_nat
                (length (List.filter (fun r => negb (result_allowed r)) results)))) ]) ].

Definition handleBatchValidation (event : Event) : Proc Response :=
  try_catchP
    (body <-- liftP (JSON_parse (request_body event)) ;;
     prompts <-- liftP (getProp body "prompts") ;;
     if negb (Array_isArray prompts) then
       Return (createResponse 400 (JObj [
         (lit "success", JBool false);
         (lit "message", JStr (lit "Invalid request: prompts must be an array")) ]))
     else
       let prompts := elements_of prompts in
       results <-- await_all (imap batch_callback prompts) ;;
       Return (createResponse 200 (batch_payload prompts results)))
    (fun error =>
       _ <-- await (console_error (lit "Batch Validation Error:") (ArgError error)) ;;
       Return (createResponse 500 (JObj [
         (lit "success", JBool false);
         (lit "message", JStr (lit "Batch validation failed")) ]))).

Definition handleHealth : Prog Response :=
  NewDate (fun iso =>
  Ret (createResponse 200 (JObj [
    (lit "status", JStr (lit "healthy"));
    (lit "timestamp", JStr iso);
    (lit "config", JObj [
       (lit "guardrailId", JStr (guardrailId MODERATION_CONFIG));
       (lit "version", JStr (guardrailVersion MODERATION_CONFIG)) ]) ]))).

Definition handleConfig : Prog Response :=
  Ret (createResponse 200 (JObj [
    (lit "guardrailId", JStr (guardrailId MODERATION_CONFIG));
    (lit "guardrailVersion", JStr (guardrailVersion MODERATION_CONFIG));
    (lit "loggingEnabled", JBool (enableLogging MODERATION_CONFIG));
    (lit "messages", JObj [
       (lit "blocked", JStr (msg_blocked (messages MODERATION_CONFIG)));
       (lit "error", JStr (msg_error (messages MODERATION_CONFIG))) ]) ])).

(** [a || b] on optional strings. *)
Definition or_else (a b : option jsstring) : option jsstring :=
  if truthy_string a then a else b.

Definition is_string (s : option jsstring) (expected : string) : bool :=
  match s with
  | Some t => jsstring_eqb t (lit expected)
  | None => false
  end.

Definition not_found_payload : json :=
  JObj [
    (lit "success", JBool false);
    (lit "message", JStr (lit "Not found"));
    (lit "availableEndpoints", JArr [
       JStr (lit "POST /validate - Validate and forward to video service");
       JStr (lit "POST /validate-batch - Batch validation (returns results only)");
       JStr (lit "GET /health - Service health check");
       JStr (lit "GET /config - View current configuration") ]) ].

(** [exports.handler]. *)
Definition handler (event : Event) : Proc Response :=
  _ <-- await (console_log (lit "Event:") (ArgEvent event)) ;;
  if is_string (httpMethod event) "OPTIONS" then
    Return (createResponse 200 (JObj [(lit "message", JStr (lit "OK"))]))
  else
    let path := or_else (or_else (path event) (rawPath event)) (Some (lit "/")) in
    let method :=
      or_else (or_else (httpMethod event) (requestContext_http_method event))
              (Some (lit "GET")) in
    try_catchP
      (if is_string method "POST" && is_string path "/validate" then
         await (handleValidation event)
       else if is_string method "POST" && is_string path "/validate-batch" then
         handleBatchValidation event
       else if is_string method "GET" && is_string path "/health" then
         await handleHealth
       else if is_string method "GET" && is_string path "/config" then
         await handleConfig
       else
         Return (createResponse 404 not_found_payload))
      (fun error =>
         _ <-- await (console_error (lit "Handler Error:") (ArgError error)) ;;
         Return (createResponse 500 (JObj [
           (lit "success", JBool false);
           (lit "message", JStr (lit "Internal server error")) ]))).

(** ** Specification vocabulary *)

Definition is_fetch (c : Call) : bool :=
  match c with
  | Fetch _ _ => true
  | _ => false
  end.

Definition is_send (c : Call) : bool :=
  match c with
  | BedrockSend _ => true
  | _ => false
  end.

(** How often a run called the downstream service, or the moderation
    service. *)
Definition forwards (calls : list Call) : nat := length (List.filter is_fetch calls).
Definition moderations (calls : list Call) : nat := length (List.filter is_send calls).

(** The event carries the string [s] as its prompt. *)
Definition prompt_of (event : Event) (s : jsstring) : Prop :=
  exists body,
    JSON_parse (request_body event) = Normal body /\
    getProp body "prompt" = Normal (Some (JStr s)).

(** The event carries the array [prompts]. *)
Definition prompts_of (event : Event) (prompts : list json) : Prop :=
  exists body,
    JSON_parse (request_body event) = Normal body /\
    getProp body "prompts" = Normal (Some (JArr prompts)).

(** How the moderation service settles the call [validatePrompt] makes
    for [prompt] after the history [h]. *)
Definition moderation_outcome (h : History) (prompt : json) : Completion json :=
  bedrockClient_send (h ++ [BedrockSend (guardrail_command prompt)])
    (guardrail_command prompt).

(** The service reports an intervention, or none. *)
Definition intervened (o : Completion json) : Prop :=
  exists response,
    o = Normal response /\
    getProp response "action" = Normal (Some (JStr (lit "GUARDRAIL_INTERVENED"))).

Definition not_intervened (o : Completion json) : Prop :=
  exists response action,
    o = Normal response /\
    getProp response "action" = Normal action /\
    is_intervened action = false.

(** What the [try] block of [validatePrompt] computes from the settled
    call. *)
Definition judge (o : Completion json) : Completion Verdict :=
  response <~ o ;;
  action <~ getProp response "action" ;;
  if is_intervened action then
    assessments <~ getProp response "assessments" ;;
    reasons <~ reasons_of assessments ;;
    Normal {| allowed := false; reason := reasons;
              details := assessments; verdict_error := None |}
  else
    Normal {| allowed := true; reason := lit "Content approved";
              details := None; verdict_error := None |}.

Definition fail_closed (e : JsError) : Verdict :=
  {| allowed := false; reason := lit "Validation service unavailable";
     details := None; verdict_error := Some (error_message e) |}.

Definition verdict_of (o : Completion json) : Verdict :=
  match judge o with
  | Normal v => v
  | Thrown e => fail_closed e
  end.

Definition fault_log (o : Completion json) : list Call :=
  match judge o with
  | Normal _ => []
  | Thrown e => [Console (Error (lit "Guardrails API Error:") (ArgError e))]
  end.

(** The line [logRequest] writes after the history [h]. *)
Definition log_line (h : History) (prompt result reason : jsstring) : Call :=
  Console (Log (lit "[" ++ Date_toISOString h ++ lit "] Validation Result:")
    (ArgValue (JObj [
      (lit "promptLength", JNum (number_of_nat (length prompt)));
      (lit "result", JStr result);
      (lit "reason", JStr reason);
      (lit "timestamp", JNum (Date_now h)) ]))).

(** A response built by [createResponse]. *)
Definition enveloped (r : Response) : Prop :=
  exists code payload, r = createResponse code payload.

(** The 422 envelope of a blocked verdict. *)
Definition blocked_response (v : Verdict) : Response :=
  createResponse 422 (JObj [
    (lit "success", JBool false);
    (lit "allowed", JBool false);
    (lit "message", JStr (msg_blocked (messages MODERATION_CONFIG)));
    (lit "details", JObj [
       (lit "reason", JStr (reason v));
       (lit "assessments",
        if truthy (details v) then default JNull (details v) else JArr []) ]) ]).

Definition bad_request (message : string) : Response :=
  createResponse 400 (JObj [
    (lit "success", JBool false);
    (lit "message", JStr (lit message)) ]).

(** What the batch callback settles to once its moderation call has
    settled with [o]. *)
Definition batch_outcome (index : nat) (prompt : json) (o : Completion json)
  : Completion BatchResult :=
  shown <~ preview prompt ;;
  Normal {| result_index := index;
            result_prompt := shown;
            result_allowed := allowed (verdict_of o);
            result_reason := reason (verdict_of o) |}.

(** The state of the batch task of [prompt] at [index]: suspended on its
    moderation call, or settled. *)
Definition batch_task (index : nat) (prompt : json) (t : Task BatchResult) : Prop :=
  (exists k,
     t = WaitingSend (guardrail_command prompt) k /\
     forall o h, exists calls,
       advance (k o) h = (Settled (batch_outcome index prompt o), h ++ calls)) \/
  (exists o, t = Settled (batch_outcome index prompt o)).

(** The tasks [ts] are the batch tasks of [prompts], counted from
    [offset]. *)
Definition batch_tasks (offset : nat) (prompts : list json)
    (ts : list (Task BatchResult)) : Prop :=
  length ts = length prompts /\
  forall i p, prompts !! i = Some p ->
    exists t, ts !! i = Some t /\ batch_task (offset + i) p t.

Definition unsettled {A} (t : Task A) : Prop := forall c, t <> Settled c.

(** Every pending call of [ts] settles during [schedule]. *)
Definition settles_all {A} (schedule : list nat) (ts : list (Task A)) : Prop :=
  forall i t, ts !! i = Some t -> unsettled t -> i ∈ schedule.

(** Every moderation call of a batch of [n] prompts settles. *)
Definition every_call_settles (n : nat) (schedule : list nat) : Prop :=
  forall i, (i < n)%nat -> i ∈ schedule.

(** The 500 envelope of the batch handler. *)
Definition batch_failed : Response :=
  createResponse 500 (JObj [
    (lit "success", JBool false);
    (lit "message", JStr (lit "Batch validation failed")) ]).

(** ** Vocabulary for the rest of the code *)

(** The path and the method the router dispatches on. *)
Definition dispatch_path (event : Event) : option jsstring :=
  or_else (or_else (path event) (rawPath event)) (Some (lit "/")).

Definition dispatch_method (event : Event) : option jsstring :=
  or_else (or_else (httpMethod event) (requestContext_http_method event))
          (Some (lit "GET")).

(** The request matches one of the four routes. *)
Definition known_route (event : Event) : bool :=
  (is_string (dispatch_method event) "POST" && is_string (dispatch_path event) "/validate")
  || (is_string (dispatch_method event) "POST"
      && is_string (dispatch_path event) "/validate-batch")
  || (is_string (dispatch_method event) "GET" && is_string (dispatch_path event) "/health")
  || (is_string (dispatch_method event) "GET" && is_string (dispatch_path event) "/config").

(** The line the handler writes first. *)
Definition event_line (event : Event) : Call :=
  Console (Log (lit "Event:") (ArgEvent event)).

(** The request [forwardToVideoService] sends for an event. *)
Definition forwarded_request (event : Event) : RequestInit := {|
  init_method := lit "POST";
  init_headers :=
    (lit "Content-Type", lit "application/json") ::
    match authorization event with
    | Some (c :: token) => [(lit "Authorization", c :: token)]
    | _ => []
    end;
  init_body := body event
|}.

(** The 502 envelope of the forwarding client, the 500 envelope of the
    single-mode pipeline. *)
Definition bad_gateway : Response :=
  createResponse 502 (JObj [
    (lit "success", JBool false);
    (lit "message", JStr (lit "Video service unavailable"));
    (lit "error", JStr (lit "Failed to connect to video generation service")) ]).

Definition validation_failed : Response :=
  createResponse 500 (JObj [
    (lit "success", JBool false);
    (lit "allowed", JBool false);
    (lit "message", JStr (lit "Unable to validate content at this time"));
    (lit "error", JStr (lit "Internal server error")) ]).

(** How the downstream service settles the request of the forwarding
    client after the history [h]. *)
Definition downstream_outcome (h : History) (event : Event) : Completion FetchResponse :=
  fetch (h ++ [Fetch (videoServiceUrl MODERATION_CONFIG) (forwarded_request event)])
    (videoServiceUrl MODERATION_CONFIG) (forwarded_request event).

(** A program without [await]: it runs to its end in one go. *)
Inductive Sync {A : Type} : Prog A -> Prop :=
| Sync_Ret (a : A) : Sync (Ret a)
| Sync_Throw (e : JsError) : Sync (Throw e)
| Sync_Output (l : ConsoleLine) (k : Prog A) : Sync k -> Sync (Output l k)
| Sync_NewDate (k : jsstring -> Prog A) : (forall t, Sync (k t)) -> Sync (NewDate k)
| Sync_DateNow (k : number -> Prog A) : (forall t, Sync (k t)) -> Sync (DateNow k).

(** A task that is settled, or waits on the moderation service and then
    runs to its end. *)
Definition one_shot {A : Type} (t : Task A) : Prop :=
  (exists c k, t = WaitingSend c k /\ forall o, Sync (k o)) \/
  (exists c, t = Settled c).

(** Calls that reach neither service. *)
Definition quiet (calls : History) : Prop :=
  forwards calls = 0%nat /\ moderations calls = 0%nat.

(** An assessment object with an optional [type] and an optional
    [guardrailCoverage.type], and its descriptor. *)
Definition assessment_of (entry : option jsstring * option jsstring) : json :=
  JObj (match fst entry with
        | Some t => [(lit "type", JStr t)]
        | None => []
        end ++
        match snd entry with
        | Some c => [(lit "guardrailCoverage", JObj [(lit "type", JStr c)])]
        | None => []
        end).

Definition descriptor_of (entry : option jsstring * option jsstring) : jsstring :=
  default (lit "undefined") (fst entry) ++ lit ": " ++
  match snd entry with
  | Some (c :: cs) => c :: cs
  | _ => lit "unknown"
  end.

End Gateway.

Arguments Host : clear implicits.
Arguments Ret {number A} a.
Arguments Throw {number A} e.
Arguments Output {number A} line k.
Arguments NewDate {number A} k.
Arguments DateNow {number A} k.
Arguments AwaitSend {number A} command k.
Arguments AwaitFetch {number A} url init k.
Arguments WaitingSend {number A} command k.
Arguments WaitingFetch {number A} url init k.
Arguments Settled {number A} c.
Arguments Return {number A} a.
Arguments Raise {number A} e.
Arguments Await {number A B} p k.
Arguments AwaitAll {number A B} tasks k.

Abbreviation value := (option json).
Abbreviation History := (list Call).

(** ** A concrete host

    A small runtime to run the gateway on concrete requests: numbers are
    integers, [JSON.parse] reads objects, arrays, strings without escapes,
    integers and the three literals, and the moderation service blocks
    the prompt "attack", is out of service for the prompt "timeout" and
    approves every other prompt. *)
Module Demo.

Definition quote : N := 34%N.

(** A JSON text written with single quotes in place of double quotes. *)
Definition json_text (s : string) : jsstring :=
  map (fun c => if (c =? 39)%N then quote else c) (lit s).

Definition is_space (c : N) : bool :=
  (c =? 32)%N || (c =? 10)%N || (c =? 13)%N || (c =? 9)%N.

Definition is_digit (c : N) : bool := (48 <=? c)%N && (c <=? 57)%N.

Fixpoint skip_space (s : jsstring) : jsstring :=
  match s with
  | c :: rest => if is_space c then skip_space rest else s
  | [] => []
  end.

(** The characters up to the closing quote. *)
Fixpoint parse_string (s : jsstring) : option (jsstring * jsstring) :=
  match s with
  | [] => None
  | c :: rest =>
      if (c =? quote)%N then Some ([], rest)
      else if (c =? 92)%N then None
      else match parse_string rest with
           | Some (t, rest') => Some (c :: t, rest')
           | None => None
           end
  end.

Fixpoint parse_digits (acc : Z) (s : jsstring) : Z * jsstring :=
  match s with
  | c :: rest =>
      if is_digit c then parse_digits (10 * acc + Z.of_N (c - 48)) rest else (acc, s)
  | [] => (acc, [])
  end.

Definition starts_with (word : string) (s : jsstring) : option jsstring :=
  if jsstring_eqb (take (length (lit word)) s) (lit word)
  then Some (drop (length (lit word)) s) else None.

Fixpoint parse_value (fuel : nat) (s : jsstring) : option (@json Z * jsstring) :=
  match fuel with
  | O => None
  | S fuel =>
      let elements :=
        fix elements (n : nat) (s : jsstring) : option (list (@json Z) * jsstring) :=
          match n with
          | O => None
          | S n =>
              match parse_value fuel s with
              | Some (v, rest) =>
                  match skip_space rest with
                  | c :: rest' =>
                      if (c =? 44)%N then
                        match elements n rest' with
                        | Some (vs, rest'') => Some (v :: vs, rest'')
                        | None => None
                        end
                      else if (c =? 93)%N then Some ([v], rest')
                      else None
                  | [] => None
                  end
              | None => None
              end
          end in
      let members :=
        fix members (n : nat) (s : jsstring)
          : option (list (jsstring * @json Z) * jsstring) :=
          match n with
          | O => None
          | S n =>
              match skip_space s with
              | q :: rest =>
                  if (q =? quote)%N then
                    match parse_string rest with
                    | Some (key, rest1) =>
                        match skip_space rest1 with
                        | colon :: rest2 =>
                            if (colon =? 58)%N then
                              match parse_value fuel rest2 with
                              | Some (v, rest3) =>
                                  match skip_space rest3 with
                                  | c :: rest4 =>
                                      if (c =? 44)%N then
                                        match members n rest4 with
                                        | Some (kvs, rest5) => Some ((key, v) :: kvs, rest5)
                                        | None => None
                                        end
                                      else if (c =? 125)%N then Some ([(key, v)], rest4)
                                      else None
                                  | [] => None
                                  end
                              | None => None
                              end
                            else None
                        | [] => None
                        end
                    | None => None
                    end
                  else None
              | [] => None
              end
          end in
      match skip_space s with
      | [] => None
      | c :: rest =>
          if (c =? quote)%N then
            match parse_string rest with
            | Some (t, rest') => Some (JStr t, rest')
            | None => None
            end
          else if (c =? 91)%N then
            match skip_space rest with
            | c' :: rest' =>
                if (c' =? 93)%N then Some (JArr [], rest')
                else match elements fuel rest with
                     | Some (vs, rest'') => Some (JArr vs, rest'')
                     | None => None
                     end
            | [] => None
            end
          else if (c =? 123)%N then
            match skip_space rest with
            | c' :: rest' =>
                if (c' =? 125)%N then Some (JObj [], rest')
                else match members fuel rest with
                     | Some (kvs, rest'') => Some (JObj kvs, rest'')
                     | None => None
                     end
            | [] => None
            end
          else if (c =? 45)%N then
            match rest with
            | d :: _ =>
                if is_digit d
                then let '(n, rest') := parse_digits 0 rest in Some (JNum (- n), rest')
                else None
            | [] => None
            end
          else if is_digit c then
            let '(n, rest') := parse_digits 0 (c :: rest) in Some (JNum n, rest')
          else
            match starts_with "null" (c :: rest) with
            | Some rest' => Some (JNull, rest')
            | None =>
                match starts_with "true" (c :: rest) with
                | Some rest' => Some (JBool true, rest')
                | None =>
                    match starts_with "false" (c :: rest) with
                    | Some rest' => Some (JBool false, rest')
                    | None => None
                    end
                end
            end
      end
  end.

Definition SyntaxError : JsError :=
  mkError (lit "SyntaxError") (lit "Unexpected token in JSON").

Definition parse (s : jsstring) : Completion (@json Z) :=
  match parse_value (S (length s)) s with
  | Some (v, rest) =>
      match skip_space rest with
      | [] => Normal v
      | _ :: _ => Thrown SyntaxError
      end
  | None => Thrown SyntaxError
  end.

Fixpoint digits_of (fuel : nat) (n : N) (acc : jsstring) : jsstring :=
  match fuel with
  | O => acc
  | S fuel =>
      let acc' := (48 + n mod 10)%N :: acc in
      if (n <? 10)%N then acc' else digits_of fuel (n / 10)%N acc'
  end.

Definition show_Z (z : Z) : jsstring :=
  (if z <? 0 then lit "-" else []) ++
  digits_of (S (N.to_nat (N.log2 (Z.abs_N z)))) (Z.abs_N z) [].

Definition quoted (s : jsstring) : jsstring := quote :: s ++ [quote].

Fixpoint stringify (v : @json Z) : jsstring :=
  match v with
  | JNull => lit "null"
  | JBool true => lit "true"
  | JBool false => lit "false"
  | JNum n => show_Z n
  | JStr s => quoted s
  | JArr items => lit "[" ++ join (lit ",") (map stringify items) ++ lit "]"
  | JObj props =>
      lit "{" ++
      join (lit ",")
        (map (fun kv => quoted (fst kv) ++ lit ":" ++ stringify (snd kv)) props) ++
      lit "}"
  end.

(** The prompt inside the command of [validatePrompt]. *)
Definition prompt_text (command : @json Z) : option jsstring :=
  match command with
  | JObj props =>
      match lookup_prop (lit "content") props with
      | Some (JArr [JObj [(_, JObj [(_, JStr s)])]]) => Some s
      | _ => None
      end
  | _ => None
  end.

Definition send (h : list (@Call Z)) (command : @json Z) : Completion (@json Z) :=
  match prompt_text command with
  | Some s =>
      if jsstring_eqb s (lit "attack") then
        Normal (JObj [
          (lit "action", JStr (lit "GUARDRAIL_INTERVENED"));
          (lit "assessments", JArr [
             JObj [(lit "type", JStr (lit "VIOLENCE"))] ]) ])
      else if jsstring_eqb s (lit "timeout") then
        Thrown (mkError (lit "TimeoutError") (lit "Request timed out"))
      else Normal (JObj [(lit "action", JStr (lit "NONE"))])
  | None =>
      Thrown (mkError (lit "ValidationException") (lit "text must be a string"))
  end.

Definition host : Host Z := {|
  number_of_nat := Z.of_nat;
  number_truthy := fun n => negb (n =? 0);
  Number_toString := show_Z;
  JSON_parse := parse;
  JSON_stringify := stringify;
  Date_toISOString := fun _ => lit "2024-01-01T00:00:00.000Z";
  Date_now := fun h => 1704067200000 + Z.of_nat (length h);
  bedrockClient_send := send;
  fetch := fun _ _ init =>
    Normal {| status := 200;
              text := Normal (json_text "{'success':true,'video_url':'https://example.com/v.mp4'}") |}
|}.

Definition request (method path : string) (body : option jsstring) : Event := {|
  httpMethod := Some (lit method);
  path := Some (lit path);
  rawPath := None;
  requestContext_http_method := None;
  headers := Some [(lit "authorization", lit "Bearer token")];
  body := body
|}.

Definition hello_request : Event :=
  request "POST" "/validate" (Some (json_text "{'prompt':'hello'}")).

Definition attack_request : Event :=
  request "POST" "/validate" (Some (json_text "{'prompt':'attack'}")).

Definition timeout_request : Event :=
  request "POST" "/validate" (Some (json_text "{'prompt':'timeout'}")).

Definition empty_request : Event :=
  request "POST" "/validate" (Some (json_text "{'prompt':''}")).

Definition batch_prompts : list jsstring := [lit "hello"; lit "attack"; lit "timeout"].

Definition batch_request : Event :=
  request "POST" "/validate-batch"
    (Some (json_text "{'prompts':['hello','attack','timeout']}")).

Definition mixed_request : Event :=
  request "POST" "/validate-batch"
    (Some (json_text "{'prompts':['hello',7,'timeout']}")).

Definition options_request : Event := request "OPTIONS" "/anything" None.

Definition unknown_request : Event := request "GET" "/unknown-route" None.

End Demo.

(** ** The dummy video service (dummy-nami.js)

    The stand-in for the downstream service is a second handler with its
    own copy of [createResponse].  It is embedded by explicit state
    passing: the state is the trace of what the handler wrote, how long
    it slept and how often it read the clock. *)
Module Dummy.

Section Service.

Context {number : Type}.

Inductive Step : Type :=
| Wrote (line : @ConsoleLine number)
| Slept (milliseconds : Z)
| ReadClock.

Abbreviation Trace := (list Step).

(** The builtins of the runtime of the service. *)
Class Runtime := mkRuntime {
  parse_json : jsstring -> Completion (@json number);
  print_json : @json number -> jsstring;
  print_number : number -> jsstring;
  clock_now : Trace -> number;
  clock_iso : Trace -> jsstring
}.

Context {runtime : Runtime}.

Definition createResponse (statusCode : Z) (body : @json number) : Response := {|
  statusCode := statusCode;
  response_headers := [
    (lit "Content-Type", lit "application/json");
    (lit "Access-Control-Allow-Origin", lit "*");
    (lit "Access-Control-Allow-Headers", lit "Content-Type,Authorization");
    (lit "Access-Control-Allow-Methods", lit "POST, GET, OPTIONS") ];
  response_body := print_json body
|}.

(** [Date.now()] inside a template literal: the clock is read and the
    number printed. *)
Definition Date_now_text (t : Trace) : jsstring * Trace :=
  (print_number (clock_now t), t ++ [ReadClock]).

(** A property of an object literal: [JSON.stringify] leaves it out when
    its value is [undefined]. *)
Definition property (key : string) (v : option (@json number))
  : list (jsstring * @json number) :=
  match v with
  | Some j => [(lit key, j)]
  | None => []
  end.

(** The fault of [const { prompt } = body] when [body] is [null], with
    the message Node gives it. *)
Definition destructure_null : JsError :=
  TypeError "Cannot destructure property 'prompt' of 'body' as it is null.".

(** [const { prompt } = body] on a parsed body: [null] cannot be
    destructured; any other value is read like [body.prompt]. *)
Definition destructure_prompt (body : @json number) : Completion (option (@json number)) :=
  match body with
  | JNull => Thrown destructure_null
  | _ => getProp body "prompt"
  end.

Definition handler (event : Event) (t : Trace) : Response * Trace :=
  let t := t ++ [Wrote (Log (lit "Dummy Video Service - Event:") (ArgEvent event))] in
  if is_string (httpMethod event) "OPTIONS" then
    (createResponse 200 (JObj [(lit "message", JStr (lit "OK"))]), t)
  else
    match (body <~ parse_json (request_body event) ;; destructure_prompt body) with
    | Normal prompt =>
        let t := t ++ [Slept 1000] in
        let '(videoId, t) := Date_now_text t in
        let '(url, t) := Date_now_text t in
        let '(thumbnail, t) := Date_now_text t in
        let generatedAt := clock_iso t in
        (createResponse 200 (JObj [
           (lit "success", JBool true);
           (lit "message", JStr (lit "Video generated successfully"));
           (lit "data", JObj (
              [(lit "videoId", JStr (lit "video_" ++ videoId))] ++
              property "prompt" prompt ++
              [(lit "status", JStr (lit "completed"));
               (lit "duration", JStr (lit "30s"));
               (lit "url",
                JStr (lit "https://example.com/videos/video_" ++ url ++ lit ".mp4"));
               (lit "thumbnail",
                JStr (lit "https://example.com/thumbnails/thumb_" ++ thumbnail
                        ++ lit ".jpg"));
               (lit "generatedAt", JStr generatedAt);
               (lit "processingTime", JStr (lit "1.2s"))])) ]),
         t ++ [ReadClock])
    | Thrown error =>
        (createResponse 500 (JObj [
           (lit "success", JBool false);
           (lit "message", JStr (lit "Video generation failed"));
           (lit "error", JStr (error_message error)) ]),
         t ++ [Wrote (Error (lit "Dummy Video Service Error:") (ArgError error))])
    end.

(** How long a run slept in all. *)
Fixpoint slept (steps : Trace) : Z :=
  match steps with
  | [] => 0
  | Slept ms :: rest => ms + slept rest
  | _ :: rest => slept rest
  end.

End Service.

Arguments Runtime : clear implicits.

(** A runtime of integers over the parser and printer of the concrete
    host, with a clock that advances with every step. *)
Definition demo_runtime : Runtime Z := {|
  parse_json := Demo.parse;
  print_json := Demo.stringify;
  print_number := Demo.show_Z;
  clock_now := fun t => 1704067200000 + Z.of_nat (length t);
  clock_iso := fun _ => lit "2024-01-01T00:00:00.000Z"
|}.

End Dummy.

(** ** More concrete hosts and requests *)
Module Lab.

(** The concrete host with other services behind it. *)
Definition host_with
    (send : list (@Call Z) -> @json Z -> Completion (@json Z))
    (fetch : list (@Call Z) -> jsstring -> RequestInit -> Completion FetchResponse)
  : Host Z := {|
  number_of_nat := Z.of_nat;
  number_truthy := fun n => negb (n =? 0);
  Number_toString := Demo.show_Z;
  JSON_parse := Demo.parse;
  JSON_stringify := Demo.stringify;
  Date_toISOString := fun _ => lit "2024-01-01T00:00:00.000Z";
  Date_now := fun h => 1704067200000 + Z.of_nat (length h);
  bedrockClient_send := send;
  fetch := fetch
|}.

Definition approving_send (h : list (@Call Z)) (command : @json Z)
  : Completion (@json Z) :=
  Normal (JObj [(lit "action", JStr (lit "NONE"))]).

(** A moderation service whose intervention carries a text where the
    assessments should be. *)
Definition odd_host : Host Z :=
  host_with
    (fun _ _ => Normal (JObj [
       (lit "action", JStr (lit "GUARDRAIL_INTERVENED"));
       (lit "assessments", JStr (lit "blocked")) ]))
    (fun _ _ _ => Thrown (mkError (lit "TypeError") (lit "fetch failed"))).

(** A downstream service that cannot be reached. *)
Definition unreachable_host : Host Z :=
  host_with approving_send
    (fun _ _ _ => Thrown (mkError (lit "TypeError") (lit "fetch failed"))).

(** A downstream service that answers 503 with a plain text. *)
Definition text_host : Host Z :=
  host_with approving_send
    (fun _ _ _ => Normal {| status := 503; text := Normal (lit "Service Unavailable") |}).

(** A request in the shape of an HTTP API event: the method sits in
    [requestContext.http.method] and the path in [rawPath]. *)
Definition options_v2_request : Event := {|
  httpMethod := None;
  path := None;
  rawPath := Some (lit "/validate");
  requestContext_http_method := Some (lit "OPTIONS");
  headers := None;
  body := None
|}.


Definition bodyless_request : Event := Demo.request "POST" "/validate" None.


Definition text_batch_request : Event :=
  Demo.request "POST" "/validate-batch" (Some (Demo.json_text "{'prompts':'hello'}")).

Definition health_request : Event := Demo.request "GET" "/health" None.

Definition generate_request : Event :=
  Demo.request "POST" "/generate" (Some (Demo.json_text "{'prompt':'a sunset'}")).

Definition null_request : Event := Demo.request "POST" "/generate" (Some (lit "null")).

End Lab.

Section Properties.

Context {number : Type} {host : Host number}.

Local Abbreviation json := (@json number).
Local Abbreviation value := (option json).
Local Abbreviation History := (list (@Call number)).
Local Abbreviation Prog := (@Prog number).
Local Abbreviation Proc := (@Proc number).
Local Abbreviation Task := (@Task number).

(** ** Running programs *)

Lemma run_bind {A B} (p : Prog A) (f : A -> Prog B) (h : History) :
  run (bind p f) h =
  match run p h with
  | (Normal a, h') => run (f a) h'
  | (Thrown e, h') => (Thrown e, h')
  end.
Proof.
  revert h. induction p; intros h0; simpl; auto.
Qed.

Lemma run_try_catch {A} (p : Prog A) (handler : JsError -> Prog A) (h : History) :
  run (try_catch p handler) h =
  match run p h with
  | (Normal a, h') => (Normal a, h')
  | (Thrown e, h') => run (handler e) h'
  end.
Proof.
  revert h. induction p; intros h0; simpl; auto.
Qed.

Lemma run_lift {A} (c : Completion A) (h : History) : run (lift c) h = (c, h).
Proof. destruct c; reflexivity. Qed.

(** [validatePrompt] always returns a verdict: the verdict of the settled
    call, after one call to the moderation service. *)
Lemma run_validatePrompt (prompt : json) (h : History) :
  run (validatePrompt prompt) h =
  (Normal (verdict_of (moderation_outcome h prompt)),
   h ++ [BedrockSend (guardrail_command prompt)]
     ++ fault_log (moderation_outcome h prompt)).
Proof.
  unfold validatePrompt, verdict_of, fault_log, judge, moderation_outcome.
  set (cmd := guardrail_command prompt).
  simpl.
  destruct (bedrockClient_send (h ++ [BedrockSend cmd]) cmd) as [response|e];
    simpl; [|by rewrite <- app_assoc].
  destruct (getProp response "action") as [action|e];
    simpl; [|by rewrite <- app_assoc].
  destruct (is_intervened action); simpl; [|done].
  destruct (getProp response "assessments") as [assessments|e];
    simpl; [|by rewrite <- app_assoc].
  destruct (reasons_of assessments) as [reasons|e];
    simpl; [done|by rewrite <- app_assoc].
Qed.

Lemma run_logRequest (prompt result reason : jsstring) (h : History) :
  run (logRequest prompt result reason) h =
  (Normal tt, h ++ [log_line h prompt result reason]).
Proof. reflexivity. Qed.

Lemma enveloped_createResponse (code : Z) (payload : json) :
  enveloped (createResponse code payload).
Proof. by exists code, payload. Qed.

#[local] Hint Resolve enveloped_createResponse : core.

Lemma run_await_fetch (url : jsstring) (init : RequestInit) (h : History) :
  run (await_fetch url init) h =
  (fetch (h ++ [Fetch url init]) url init, h ++ [Fetch url init]).
Proof. unfold await_fetch. simpl. apply run_lift. Qed.

Lemma run_await_send (command : json) (h : History) :
  run (await_send command) h =
  (bedrockClient_send (h ++ [BedrockSend command]) command,
   h ++ [BedrockSend command]).
Proof. unfold await_send. simpl. apply run_lift. Qed.

(** The forwarding client never throws, calls [fetch] once and the
    moderation service never. *)
Lemma run_forwardToVideoService (event : Event) (h : History) :
  exists r calls,
    run (forwardToVideoService event) h = (Normal r, h ++ calls) /\
    forwards calls = 1%nat /\ moderations calls = 0%nat /\ enveloped r.
Proof.
  unfold forwardToVideoService.
  rewrite run_try_catch, run_bind, run_await_fetch.
  match goal with
  | |- context [fetch _ ?u ?i] => set (url := u); set (init := i)
  end.
  destruct (fetch (h ++ [Fetch url init]) url init) as [response|e].
  - rewrite run_bind, run_lift.
    destruct (text response) as [responseData|e]; simpl.
    + exists (createResponse (status response)
                match JSON_parse responseData with
                | Normal data => data
                | Thrown _ => JObj [(lit "message", JStr responseData)]
                end), [Fetch url init].
      auto.
    + eexists _, [Fetch url init; Console _]. rewrite <- app_assoc.
      split; [reflexivity|]. auto.
  - simpl. eexists _, [Fetch url init; Console _]. rewrite <- app_assoc.
    split; [reflexivity|]. auto.
Qed.

(** The single-mode pipeline on a non-empty string prompt: one moderation
    call, one log line, then the forwarding client or the 422 envelope. *)
Lemma run_handleValidation (event : Event) (s : jsstring) (h : History) :
  prompt_of event s -> s <> [] ->
  let o := moderation_outcome h (JStr s) in
  let v := verdict_of o in
  let h1 := h ++ [BedrockSend (guardrail_command (JStr s))] ++ fault_log o in
  run (handleValidation event) h =
  if allowed v
  then run (forwardToVideoService event)
         (h1 ++ [log_line h1 s (lit "ALLOWED") (reason v)])
  else (Normal (blocked_response v),
        h1 ++ [log_line h1 s (lit "BLOCKED") (reason v)]).
Proof.
  intros (body & Hparse & Hprompt) Hne o v h1.
  unfold handleValidation.
  rewrite run_try_catch, run_bind, run_lift, Hparse.
  rewrite run_bind, run_lift, Hprompt.
  destruct s as [|c s]; [done|].
  cbn [truthy]. unfold jsstring_eqb.
  rewrite bool_decide_eq_false_2 by done.
  cbn [negb orb typeof String.eqb Ascii.eqb Bool.eqb string_of length Nat.eqb].
  rewrite run_bind, run_validatePrompt.
  fold o v h1.
  destruct (allowed v).
  - rewrite run_bind, run_logRequest.
    destruct (run_forwardToVideoService event
                (h1 ++ [log_line h1 (c :: s) (lit "ALLOWED") (reason v)]))
      as (r & calls & -> & _).
    reflexivity.
  - rewrite run_bind, run_logRequest. reflexivity.
Qed.

(** ** Verdicts *)

Lemma forwards_app (xs ys : History) :
  forwards (xs ++ ys) = (forwards xs + forwards ys)%nat.
Proof. unfold forwards. by rewrite List.filter_app, length_app. Qed.

Lemma moderations_app (xs ys : History) :
  moderations (xs ++ ys) = (moderations xs + moderations ys)%nat.
Proof. unfold moderations. by rewrite List.filter_app, length_app. Qed.

Lemma forwards_fault_log (o : Completion json) : forwards (fault_log o) = 0%nat.
Proof. unfold fault_log. by destruct (judge o). Qed.

Lemma reasons_of_nonempty (assessments : value) (reasons : jsstring) :
  reasons_of assessments = Normal reasons -> reasons <> [].
Proof.
  unfold reasons_of. intros H.
  destruct (match assessments with
            | Some (JArr items) =>
                parts <~ cmapM assessment_descriptor items ;;
                Normal (Some (join (lit ", ") parts))
            | Some JNull | None => Normal None
            | Some _ => Thrown (TypeError "response.assessments.map is not a function")
            end) as [joined|e]; simpl in H; [|done].
  injection H as <-.
  destruct joined as [[|c joined]|]; simpl; done.
Qed.

Lemma verdict_of_blocked_reason (o : Completion json) :
  allowed (verdict_of o) = false -> reason (verdict_of o) <> [].
Proof.
  unfold verdict_of, judge.
  destruct o as [response|e]; simpl; [|done].
  destruct (getProp response "action") as [action|e]; simpl; [|done].
  destruct (is_intervened action); simpl; [|done].
  destruct (getProp response "assessments") as [assessments|e]; simpl; [|done].
  destruct (reasons_of assessments) as [reasons|e] eqn:Hr; simpl; [|done].
  intros _. by eapply reasons_of_nonempty.
Qed.

Lemma verdict_of_intervened (o : Completion json) :
  intervened o -> allowed (verdict_of o) = false.
Proof.
  intros (response & -> & Haction).
  unfold verdict_of, judge. simpl. rewrite Haction. simpl.
  destruct (getProp response "assessments") as [assessments|e]; simpl; [|done].
  by destruct (reasons_of assessments).
Qed.

Lemma verdict_of_not_intervened (o : Completion json) :
  not_intervened o ->
  allowed (verdict_of o) = true /\
  reason (verdict_of o) = lit "Content approved" /\
  fault_log o = [].
Proof.
  intros (response & action & -> & Haction & Hno).
  unfold verdict_of, fault_log, judge. simpl. rewrite Haction. simpl.
  by rewrite Hno.
Qed.

(** ** Running orchestration code *)

Lemma runP_bindP {A B} (schedule : list nat) (p : Proc A) (f : A -> Proc B)
    (h : History) :
  runP schedule (bindP p f) h =
  match runP schedule p h with
  | (Some (Normal a), h') => runP schedule (f a) h'
  | (Some (Thrown e), h') => (Some (Thrown e), h')
  | (None, h') => (None, h')
  end.
Proof.
  revert h. induction p as [a|e|C q k IH|C ps k IH]; intros h; simpl; auto.
  - destruct (run q h) as [c h']. apply IH.
  - destruct (start_all ps h) as [ts h1].
    destruct (Promise_all schedule ts h1) as [[c|] h2]; auto.
Qed.

Lemma runP_try_catchP {A} (schedule : list nat) (p : Proc A)
    (handler : JsError -> Proc A) (h : History) :
  runP schedule (try_catchP p handler) h =
  match runP schedule p h with
  | (Some (Normal a), h') => (Some (Normal a), h')
  | (Some (Thrown e), h') => runP schedule (handler e) h'
  | (None, h') => (None, h')
  end.
Proof.
  revert h. induction p as [a|e|C q k IH|C ps k IH]; intros h; simpl; auto.
  - destruct (run q h) as [c h']. apply IH.
  - destruct (start_all ps h) as [ts h1].
    destruct (Promise_all schedule ts h1) as [[c|] h2]; auto.
Qed.

Lemma runP_liftP {A} (schedule : list nat) (c : Completion A) (h : History) :
  runP schedule (liftP c) h = (Some c, h).
Proof. by destruct c. Qed.

Lemma runP_await {A} (schedule : list nat) (p : Prog A) (h : History) :
  runP schedule (await p) h = (Some (run p h).1, (run p h).2).
Proof.
  unfold await. simpl. destruct (run p h) as [c h']. apply runP_liftP.
Qed.

Lemma runP_await_all {A} (schedule : list nat) (ps : list (Prog A)) (h : History) :
  runP schedule (await_all ps) h =
  Promise_all schedule (start_all ps h).1 (start_all ps h).2.
Proof.
  unfold await_all. simpl. destruct (start_all ps h) as [ts h1]. simpl.
  destruct (Promise_all schedule ts h1) as [[c|] h2]; [apply runP_liftP|done].
Qed.

(** ** The tasks of a batch *)

Lemma advance_batch_callback (index : nat) (prompt : json) (h : History) :
  exists t,
    advance (batch_callback index prompt) h =
      (t, h ++ [BedrockSend (guardrail_command prompt)]) /\
    batch_task index prompt t.
Proof.
  unfold batch_callback, validatePrompt. simpl.
  eexists. split; [reflexivity|]. left. eexists. split; [reflexivity|].
  intros o h'. unfold batch_outcome, verdict_of, judge.
  destruct o as [response|e]; simpl.
  2: { destruct (preview prompt); simpl; by eexists [_]. }
  destruct (getProp response "action") as [action|e]; simpl.
  2: { destruct (preview prompt); simpl; by eexists [_]. }
  destruct (is_intervened action); simpl.
  2: { destruct (preview prompt); simpl; exists []; by rewrite app_nil_r. }
  destruct (getProp response "assessments") as [assessments|e]; simpl.
  2: { destruct (preview prompt); simpl; by eexists [_]. }
  destruct (reasons_of assessments) as [reasons|e]; simpl.
  - destruct (preview prompt); simpl; exists []; by rewrite app_nil_r.
  - destruct (preview prompt); simpl; by eexists [_].
Qed.

Lemma start_all_batch (offset : nat) (prompts : list json) (h : History) :
  batch_tasks offset prompts
    (start_all (imap (fun i => batch_callback (offset + i)) prompts) h).1.
Proof.
  revert offset h. induction prompts as [|p prompts IH]; intros offset h.
  - split; [done|]. intros i p. by rewrite lookup_nil.
  - cbn [imap start_all].
    destruct (advance_batch_callback (offset + 0) p h) as (t & -> & Ht).
    specialize (IH (S offset) (h ++ [BedrockSend (guardrail_command p)])).
    assert (Hext : imap ((fun i => batch_callback (offset + i)) ∘ S) prompts =
                   imap (fun i => batch_callback (S offset + i)) prompts).
    { apply imap_ext. intros i x _. simpl. f_equal. lia. }
    rewrite Hext.
    destruct (start_all (imap (fun i => batch_callback (S offset + i)) prompts)
                (h ++ [BedrockSend (guardrail_command p)])) as [ts h2].
    unfold batch_tasks in *. cbn [fst] in *.
    destruct IH as [Hlen Hall]. split; [by rewrite !length_cons, Hlen|].
    intros [|i] q Hq; simpl in *.
    + injection Hq as <-. by exists t.
    + destruct (Hall i q Hq) as (t' & Ht' & Hok). exists t'. split; [done|].
      by replace (offset + S i)%nat with (S (offset + i)) by lia.
Qed.

(** ** [Promise.all] over the tasks of a batch *)

Lemma Promise_all_unfold {A} (schedule : list nat) (ts : list (Task A)) (h : History) :
  Promise_all schedule ts h =
  match first_rejection ts with
  | Some e => (Some (Thrown e), h)
  | None =>
      match all_fulfilled ts with
      | Some values => (Some (Normal values), h)
      | None =>
          match schedule with
          | [] => (None, h)
          | i :: rest =>
              match ts !! i with
              | Some t =>
                  Promise_all rest (<[i := (resume t h).1]> ts) (resume t h).2
              | None => Promise_all rest ts h
              end
          end
      end
  end.
Proof.
  destruct schedule as [|i rest]; simpl; [done|].
  destruct (first_rejection ts); [done|].
  destruct (all_fulfilled ts); [done|].
  destruct (ts !! i) as [t|]; [|done].
  by destruct (resume t h).
Qed.

Lemma first_rejection_Some {A} (ts : list (Task A)) (e : JsError) :
  first_rejection ts = Some e -> exists i, ts !! i = Some (Settled (Thrown e)).
Proof.
  induction ts as [|t ts IH]; simpl; [done|].
  intros H.
  assert (Hcases : t = Settled (Thrown e) \/ first_rejection ts = Some e).
  { destruct t as [| |[a|e']]; auto. injection H as ->. by left. }
  destruct Hcases as [->|Hrest].
  - by exists 0%nat.
  - destruct (IH Hrest) as [i Hi]. by exists (S i).
Qed.

Lemma all_fulfilled_Some {A} (ts : list (Task A)) (values : list A) :
  all_fulfilled ts = Some values -> ts = map (fun a => Settled (Normal a)) values.
Proof.
  revert values. induction ts as [|t ts IH]; intros values; simpl.
  - by intros [= <-].
  - destruct t as [| |[a|e]]; try done.
    destruct (all_fulfilled ts) as [rest|]; [|done].
    intros [= <-]. simpl. f_equal. by apply IH.
Qed.

Lemma pending_exists {A} (ts : list (Task A)) :
  first_rejection ts = None -> all_fulfilled ts = None ->
  exists i t, ts !! i = Some t /\ unsettled t.
Proof.
  induction ts as [|t ts IH]; simpl; [done|].
  destruct t as [c k|u i k|[a|e]].
  - intros _ _. by exists 0%nat, (WaitingSend c k).
  - intros _ _. by exists 0%nat, (WaitingFetch u i k).
  - intros Hrej Hful.
    destruct (all_fulfilled ts) as [rest|]; [done|].
    destruct (IH Hrej eq_refl) as (i & t & Hi & Ht). by exists (S i), t.
  - done.
Qed.

Lemma resume_batch_task (index : nat) (prompt : json) (t : Task BatchResult)
    (h : History) :
  batch_task index prompt t ->
  exists o, (resume t h).1 = Settled (batch_outcome index prompt o).
Proof.
  intros [(k & -> & Hk)|(o & ->)]; simpl.
  - destruct (Hk (bedrockClient_send h (guardrail_command prompt)) h) as [calls ->].
    by eexists.
  - by exists o.
Qed.

Lemma batch_tasks_resume (offset : nat) (prompts : list json)
    (ts : list (Task BatchResult)) (i : nat) (t : Task BatchResult) (h : History) :
  batch_tasks offset prompts ts -> ts !! i = Some t ->
  batch_tasks offset prompts (<[i := (resume t h).1]> ts).
Proof.
  intros [Hlen Hall] Hi. split; [by rewrite length_insert|].
  intros j p Hp. destruct (Hall j p Hp) as (t' & Hj & Hok).
  destruct (decide (i = j)) as [->|Hne].
  - rewrite list_lookup_insert_eq by (by eapply lookup_lt_Some).
    eexists. split; [reflexivity|].
    assert (t' = t) as -> by congruence.
    destruct (resume_batch_task (offset + j) p t h Hok) as [o ->].
    right. by exists o.
  - rewrite list_lookup_insert_ne by done. by exists t'.
Qed.

Lemma settles_all_resume (offset : nat) (prompts : list json)
    (ts : list (Task BatchResult)) (i : nat) (rest : list nat)
    (t : Task BatchResult) (h : History) :
  batch_tasks offset prompts ts -> ts !! i = Some t ->
  settles_all (i :: rest) ts ->
  settles_all rest (<[i := (resume t h).1]> ts).
Proof.
  intros [Hlen Hall] Hi Hsched j t' Hj Hpending.
  destruct (decide (i = j)) as [->|Hne].
  - rewrite list_lookup_insert_eq in Hj by (by eapply lookup_lt_Some).
    injection Hj as <-.
    assert (Hlt : (j < length prompts)%nat)
      by (rewrite <- Hlen; by eapply lookup_lt_Some).
    destruct (lookup_lt_is_Some_2 _ _ Hlt) as [p Hp].
    destruct (Hall j p Hp) as (t0 & Ht0 & Hok).
    assert (t0 = t) as -> by congruence.
    destruct (resume_batch_task (offset + j) p t h Hok) as [o Ho].
    exfalso. by eapply Hpending.
  - rewrite list_lookup_insert_ne in Hj by done.
    specialize (Hsched j t' Hj Hpending).
    apply elem_of_cons in Hsched as [->|]; done.
Qed.

Lemma settles_all_skip {A} (ts : list (Task A)) (i : nat) (rest : list nat) :
  ts !! i = None -> settles_all (i :: rest) ts -> settles_all rest ts.
Proof.
  intros Hi Hsched j t Hj Hpending.
  specialize (Hsched j t Hj Hpending).
  apply elem_of_cons in Hsched as [->|]; [congruence|done].
Qed.

(** [Promise.all] settles once every pending call has settled. *)
Lemma Promise_all_settles (offset : nat) (prompts : list json) (schedule : list nat)
    (ts : list (Task BatchResult)) (h : History) :
  batch_tasks offset prompts ts -> settles_all schedule ts ->
  exists c h', Promise_all schedule ts h = (Some c, h').
Proof.
  revert ts h. induction schedule as [|i rest IH]; intros ts h Hts Hsched;
    rewrite Promise_all_unfold.
  - destruct (first_rejection ts) as [e|] eqn:Hrej; [by eexists _, _|].
    destruct (all_fulfilled ts) as [values|] eqn:Hful; [by eexists _, _|].
    destruct (pending_exists ts Hrej Hful) as (i & t & Hi & Ht).
    specialize (Hsched i t Hi Ht). by apply elem_of_nil in Hsched.
  - destruct (first_rejection ts) as [e|] eqn:Hrej; [by eexists _, _|].
    destruct (all_fulfilled ts) as [values|] eqn:Hful; [by eexists _, _|].
    destruct (ts !! i) as [t|] eqn:Hi.
    + apply IH.
      * by apply batch_tasks_resume.
      * by eapply settles_all_resume.
    + apply IH; [done|]. by eapply settles_all_skip.
Qed.

(** What [Promise.all] settles to: the result of every task in index
    order, or the fault of one task. *)
Lemma Promise_all_outcome (offset : nat) (prompts : list json) (schedule : list nat)
    (ts : list (Task BatchResult)) (h h' : History)
    (c : Completion (list BatchResult)) :
  batch_tasks offset prompts ts ->
  Promise_all schedule ts h = (Some c, h') ->
  match c with
  | Normal results =>
      length results = length prompts /\
      forall i p, prompts !! i = Some p ->
        exists r o, results !! i = Some r /\
                    batch_outcome (offset + i) p o = Normal r
  | Thrown e =>
      exists i p o, prompts !! i = Some p /\
                    batch_outcome (offset + i) p o = Thrown e
  end.
Proof.
  revert ts h. induction schedule as [|i rest IH]; intros ts h Hts;
    rewrite Promise_all_unfold;
    (destruct (first_rejection ts) as [e|] eqn:Hrej;
     [|destruct (all_fulfilled ts) as [values|] eqn:Hful]).
  1,4: intros [= <- <-];
       destruct Hts as [Hlen Hall];
       destruct (first_rejection_Some ts e Hrej) as [j Hj];
       assert (Hlt : (j < length prompts)%nat)
         by (rewrite <- Hlen; by eapply lookup_lt_Some);
       destruct (lookup_lt_is_Some_2 _ _ Hlt) as [p Hp];
       destruct (Hall j p Hp) as (t & Ht & [(k & -> & _)|(o & ->)]); [congruence|];
       exists j, p, o; split; [done|]; congruence.
  1,3: intros [= <- <-];
       destruct Hts as [Hlen Hall];
       apply all_fulfilled_Some in Hful; subst ts;
       rewrite length_map in Hlen; split; [done|];
       intros j p Hp;
       destruct (Hall j p Hp) as (t & Ht & Hok);
       rewrite list_lookup_fmap in Ht;
       destruct (values !! j) as [r|] eqn:Hr; [|done];
       simpl in Ht; injection Ht as <-;
       destruct Hok as [(k & Hk & _)|(o & Ho)]; [done|];
       exists r, o; split; [done|]; congruence.
  - done.
  - destruct (ts !! i) as [t|] eqn:Hi.
    + apply IH. by apply batch_tasks_resume.
    + by apply IH.
Qed.

Lemma first_rejection_lookup {A} (ts : list (Task A)) (j : nat) (e : JsError) :
  ts !! j = Some (Settled (Thrown e)) -> exists e', first_rejection ts = Some e'.
Proof.
  revert j. induction ts as [|t ts IH]; intros j; [by rewrite lookup_nil|].
  destruct j as [|j]; simpl.
  - intros [= ->]. by eexists.
  - intros Hj. destruct (IH j Hj) as [e' He'].
    destruct t as [| |[a|e0]]; eauto.
Qed.

Lemma batch_outcome_not_string (index : nat) (p : json) (o : Completion json) :
  (forall s, p <> JStr s) -> exists e, batch_outcome index p o = Thrown e.
Proof.
  intros Hp. unfold batch_outcome.
  destruct p as [|b|n|s|items|props]; simpl; eauto. by destruct (Hp s).
Qed.

(** [Promise.all] rejects once the call of a task that faults has settled,
    whether or not the other calls settle. *)
Lemma Promise_all_rejects (offset : nat) (prompts : list json) (schedule : list nat)
    (ts : list (Task BatchResult)) (h : History) (j : nat) (p : json) :
  batch_tasks offset prompts ts ->
  prompts !! j = Some p -> (forall s, p <> JStr s) ->
  j ∈ schedule \/ (exists e, ts !! j = Some (Settled (Thrown e))) ->
  exists e h', Promise_all schedule ts h = (Some (Thrown e), h').
Proof.
  intros Hts Hj Hp. revert ts h Hts.
  induction schedule as [|i rest IH]; intros ts h Hts Hsched;
    rewrite Promise_all_unfold;
    (destruct (first_rejection ts) as [e|] eqn:Hrej; [by eexists _, _|]).
  - destruct Hsched as [Hin|[e He]]; [by apply elem_of_nil in Hin|].
    destruct (first_rejection_lookup ts j e He) as [e' He']. congruence.
  - destruct (Hts) as [Hlen Hall].
    destruct (Hall j p Hj) as (tj & Htj & Hok).
    destruct (all_fulfilled ts) as [values|] eqn:Hful.
    { apply all_fulfilled_Some in Hful. subst ts.
      rewrite list_lookup_fmap in Htj.
      destruct (values !! j) as [r|]; [|done]. simpl in Htj. injection Htj as <-.
      destruct Hok as [(k & Hk & _)|(o & Ho)]; [done|].
      destruct (batch_outcome_not_string (offset + j) p o Hp) as [e He]. congruence. }
    destruct Hsched as [Hin|[e He]];
      [|destruct (first_rejection_lookup ts j e He) as [e' He']; congruence].
    destruct (ts !! i) as [t|] eqn:Hi.
    + apply IH; [by apply batch_tasks_resume|].
      destruct (decide (i = j)) as [->|Hne].
      * right. assert (t = tj) as -> by congruence.
        destruct (resume_batch_task (offset + j) p tj h Hok) as [o Ho].
        destruct (batch_outcome_not_string (offset + j) p o Hp) as [e He].
        exists e. rewrite list_lookup_insert_eq by (by eapply lookup_lt_Some).
        by rewrite Ho, He.
      * left. apply elem_of_cons in Hin as [->|]; done.
    + apply IH; [done|]. left.
      apply elem_of_cons in Hin as [->|]; [congruence|done].
Qed.

(** The batch handler, once every moderation call has settled: the
    envelope of the joined results, or the 500 envelope when a task
    faulted. *)
Lemma runP_handleBatchValidation (event : Event) (prompts : list json)
    (schedule : list nat) (h : History) :
  prompts_of event prompts -> every_call_settles (length prompts) schedule ->
  exists c h',
    runP schedule (handleBatchValidation event) h =
      (Some (Normal match c with
                    | Normal results => createResponse 200 (batch_payload prompts results)
                    | Thrown _ => batch_failed
                    end), h') /\
    match c with
    | Normal results =>
        length results = length prompts /\
        forall i p, prompts !! i = Some p ->
          exists r o, results !! i = Some r /\ batch_outcome i p o = Normal r
    | Thrown e =>
        exists i p o, prompts !! i = Some p /\ batch_outcome i p o = Thrown e
    end.
Proof.
  intros (body & Hparse & Hprompts) Hsched.
  unfold handleBatchValidation.
  rewrite runP_try_catchP, runP_bindP, runP_liftP, Hparse.
  rewrite runP_bindP, runP_liftP, Hprompts.
  cbn [Array_isArray negb elements_of].
  rewrite runP_bindP, runP_await_all.
  pose proof (start_all_batch 0 prompts h) as Hts. cbn [Nat.add] in Hts.
  change (fun i => batch_callback i) with batch_callback in Hts.
  destruct (start_all (imap batch_callback prompts) h) as [ts h1]. cbn [fst snd] in *.
  assert (Hall : settles_all schedule ts).
  { intros i t Hi _. apply Hsched. destruct Hts as [<- _]. by eapply lookup_lt_Some. }
  destruct (Promise_all_settles 0 prompts schedule ts h1 Hts Hall) as (c & h2 & Hrun).
  pose proof (Promise_all_outcome 0 prompts schedule ts h1 h2 c Hts Hrun) as Hc.
  rewrite Hrun. destruct c as [results|e].
  - exists (Normal results), h2. split; [reflexivity|]. exact Hc.
  - exists (Thrown e), (h2 ++ [Console (Error (lit "Batch Validation Error:") (ArgError e))]).
    split; [reflexivity|]. exact Hc.
Qed.

Lemma batch_outcome_string (index : nat) (s : jsstring) (o : Completion json)
    (r : BatchResult) :
  batch_outcome index (JStr s) o = Normal r ->
  result_index r = index /\
  result_prompt r = substring0 100 s ++ (if (100 <? length s)%nat then lit "..." else []).
Proof. unfold batch_outcome. simpl. by intros [= <-]. Qed.

(** ** The shape check of the single-mode pipeline *)

(** A missing prompt or one that is not a string is answered with status
    400 before any call is made. *)
Lemma non_string_prompt_is_rejected (event : Event) (h : History)
    (body : json) (prompt : value) :
  JSON_parse (request_body event) = Normal body ->
  getProp body "prompt" = Normal prompt ->
  typeof prompt <> "string"%string ->
  run (handleValidation event) h =
  (Normal (bad_request "Invalid request: prompt is required and must be a string"), h).
Proof.
  intros Hparse Hprompt Htype.
  unfold handleValidation.
  rewrite run_try_catch, run_bind, run_lift, Hparse.
  rewrite run_bind, run_lift, Hprompt.
  apply String.eqb_neq in Htype. rewrite Htype, orb_true_r. reflexivity.
Qed.

(** The reason of an intervention without assessments. *)
Lemma reasons_of_missing : reasons_of None = Normal (lit "Policy violation").
Proof. reflexivity. Qed.

Lemma reasons_of_empty : reasons_of (Some (JArr [])) = Normal (lit "Policy violation").
Proof. reflexivity. Qed.

(** ** Every path ends in an envelope *)

(** The single-mode pipeline on every request: it returns an envelope,
    and it calls the downstream service at most once, and only for a
    non-empty string prompt with an allowed verdict. *)
Lemma run_handleValidation_cases (event : Event) (h : History) :
  exists r calls,
    run (handleValidation event) h = (Normal r, h ++ calls) /\
    enveloped r /\
    (forwards calls = 0%nat \/
     (forwards calls = 1%nat /\
      exists s, prompt_of event s /\ s <> [] /\
                allowed (verdict_of (moderation_outcome h (JStr s))) = true)).
Proof.
  destruct (JSON_parse (request_body event)) as [body|e] eqn:Hparse.
  2: { unfold handleValidation.
       rewrite run_try_catch, run_bind, run_lift, Hparse. simpl.
       eexists _, [_]. split; [reflexivity|]. auto. }
  destruct (getProp body "prompt") as [prompt|e] eqn:Hprompt.
  2: { unfold handleValidation.
       rewrite run_try_catch, run_bind, run_lift, Hparse.
       rewrite run_bind, run_lift, Hprompt. simpl.
       eexists _, [_]. split; [reflexivity|]. auto. }
  destruct (negb (truthy prompt) || negb (String.eqb (typeof prompt) "string"))
    eqn:Hguard.
  { unfold handleValidation.
    rewrite run_try_catch, run_bind, run_lift, Hparse.
    rewrite run_bind, run_lift, Hprompt, Hguard. simpl.
    eexists _, []. rewrite app_nil_r. split; [reflexivity|]. auto. }
  assert (Hstring : exists s, prompt = Some (JStr s) /\ s <> []).
  { destruct prompt as [[|b|n|s|items|props]|].
    1, 5, 6, 7: discriminate Hguard.
    1, 2: cbn [typeof] in Hguard; by rewrite orb_true_r in Hguard.
    exists s. split; [done|]. intros ->.
    cbn [truthy] in Hguard. unfold jsstring_eqb in Hguard.
    by rewrite bool_decide_eq_true_2 in Hguard by done. }
  destruct Hstring as (s & -> & Hne).
  assert (Hof : prompt_of event s) by (by exists body).
  rewrite (run_handleValidation event s h Hof Hne). cbv zeta.
  set (o := moderation_outcome h (JStr s)).
  set (v := verdict_of o).
  set (sent := [BedrockSend (guardrail_command (JStr s))] ++ fault_log o).
  assert (Hsent : forwards sent = 0%nat)
    by (unfold sent; by rewrite forwards_app, forwards_fault_log).
  destruct (allowed v) eqn:Hallowed.
  - set (line := log_line (h ++ sent) s (lit "ALLOWED") (reason v)).
    destruct (run_forwardToVideoService event ((h ++ sent) ++ [line]))
      as (r & after & -> & Hone & _ & Hr).
    exists r, (sent ++ [line] ++ after).
    split; [by rewrite <- !app_assoc|]. split; [done|]. right. split.
    + by rewrite !forwards_app, Hsent, Hone.
    + by exists s.
  - set (line := log_line (h ++ sent) s (lit "BLOCKED") (reason v)).
    exists (blocked_response v), (sent ++ [line]).
    split; [by rewrite <- !app_assoc|].
    split; [apply enveloped_createResponse|]. left.
    by rewrite !forwards_app, Hsent.
Qed.

Lemma runP_handleBatchValidation_enveloped (event : Event) (schedule : list nat)
    (h h' : History) (c : Completion Response) :
  runP schedule (handleBatchValidation event) h = (Some c, h') ->
  exists r, c = Normal r /\ enveloped r.
Proof.
  unfold handleBatchValidation.
  rewrite runP_try_catchP, runP_bindP, runP_liftP.
  destruct (JSON_parse (request_body event)) as [body|e].
  2: { simpl. intros [= <- _]. by eexists. }
  rewrite runP_bindP, runP_liftP.
  destruct (getProp body "prompts") as [prompts|e].
  2: { simpl. intros [= <- _]. by eexists. }
  destruct (Array_isArray prompts); cbn [negb].
  - rewrite runP_bindP, runP_await_all.
    destruct (Promise_all schedule _ _) as [[[results|e]|] h2]; simpl.
    + intros [= <- _]. by eexists.
    + intros [= <- _]. by eexists.
    + done.
  - simpl. intros [= <- _]. by eexists.
Qed.

(** ** The claims *)

(** C9. Every verdict [validatePrompt] returns with [allowed = false]
    carries a non-empty reason: [validatePrompt] returns a verdict for
    every prompt, whatever the moderation service answers or throws, and
    a blocked verdict has a reason of at least one character. *)
Theorem validatePrompt_blocked_has_reason (prompt : json) (h : History) :
  exists v h',
    run (validatePrompt prompt) h = (Normal v, h') /\
    (allowed v = false -> reason v <> []).
Proof.
  rewrite run_validatePrompt. eexists _, _. split; [reflexivity|].
  apply verdict_of_blocked_reason.
Qed.

(** C1. When the moderation service reports an intervention for the
    prompt of a request, [handleValidation] returns status 422 and the
    run contains no call to the downstream service. *)
Theorem blocked_prompt_is_not_forwarded (event : Event) (s : jsstring) (h : History) :
  prompt_of event s -> s <> [] ->
  intervened (moderation_outcome h (JStr s)) ->
  exists r calls,
    run (handleValidation event) h = (Normal r, h ++ calls) /\
    statusCode r = 422 /\
    forwards calls = 0%nat.
Proof.
  intros Hprompt Hne Hblock.
  rewrite (run_handleValidation event s h Hprompt Hne). cbv zeta.
  rewrite (verdict_of_intervened _ Hblock).
  eexists _, _. rewrite <- !app_assoc. split; [reflexivity|]. split; [reflexivity|].
  rewrite !forwards_app, forwards_fault_log. reflexivity.
Qed.

(** C2. When the call to the moderation service throws, [validatePrompt]
    returns a verdict with [allowed = false] and the reason
    "Validation service unavailable", and [handleValidation] answers a
    non-empty string prompt with status 422, not with a 5xx status. *)
Theorem moderation_fault_fails_closed
  (event : Event) (s : jsstring) (h : History) (e : JsError) :
  prompt_of event s -> s <> [] ->
  moderation_outcome h (JStr s) = Thrown e ->
  (exists v h1,
     run (validatePrompt (JStr s)) h = (Normal v, h1) /\
     allowed v = false /\
     reason v = lit "Validation service unavailable") /\
  (exists r h2,
     run (handleValidation event) h = (Normal r, h2) /\
     statusCode r = 422 /\
     ~ (500 <= statusCode r)).
Proof.
  intros Hprompt Hne Hfault. split.
  - rewrite run_validatePrompt, Hfault. eexists _, _. split; [reflexivity|].
    by unfold verdict_of.
  - rewrite (run_handleValidation event s h Hprompt Hne). cbv zeta.
    rewrite Hfault. unfold verdict_of. simpl.
    eexists _, _. split; [reflexivity|]. simpl. lia.
Qed.

(** C3. When the moderation service reports no intervention for a
    non-empty string prompt, [handleValidation] runs the forwarding
    client once and returns the response of the forwarding client as it
    is: the whole run contains exactly one call to the downstream
    service. *)
Theorem approved_prompt_is_forwarded_once (event : Event) (s : jsstring) (h : History) :
  prompt_of event s -> s <> [] ->
  not_intervened (moderation_outcome h (JStr s)) ->
  exists before r after,
    run (forwardToVideoService event) (h ++ before) = (Normal r, h ++ before ++ after) /\
    run (handleValidation event) h = (Normal r, h ++ before ++ after) /\
    forwards before = 0%nat /\
    forwards (before ++ after) = 1%nat.
Proof.
  intros Hprompt Hne Hpass.
  rewrite (run_handleValidation event s h Hprompt Hne). cbv zeta.
  destruct (verdict_of_not_intervened _ Hpass) as (-> & -> & ->).
  rewrite app_nil_r.
  set (h1 := h ++ [BedrockSend (guardrail_command (JStr s))]).
  set (line := log_line h1 s (lit "ALLOWED") (lit "Content approved")).
  destruct (run_forwardToVideoService event (h1 ++ [line]))
    as (r & after & Hrun & Hone & _ & _).
  exists [BedrockSend (guardrail_command (JStr s)); line], r, after.
  assert (Heq : h ++ [BedrockSend (guardrail_command (JStr s)); line] = h1 ++ [line])
    by (unfold h1; by rewrite <- app_assoc).
  rewrite (app_assoc h), Heq.
  split; [done|]. split; [done|]. split; [done|].
  by rewrite forwards_app, Hone.
Qed.

(** C4, as the code behaves.  A request whose prompt is the empty string
    is answered with status 400 and the message of a missing prompt, not
    with the message of an empty prompt; the moderation service is not
    called. *)
Theorem empty_prompt_reported_as_missing (event : Event) (h : History) :
  prompt_of event [] ->
  run (handleValidation event) h =
  (Normal (bad_request "Invalid request: prompt is required and must be a string"), h).
Proof.
  intros (body & Hparse & Hprompt).
  unfold handleValidation.
  rewrite run_try_catch, run_bind, run_lift, Hparse.
  rewrite run_bind, run_lift, Hprompt.
  reflexivity.
Qed.

(** C5. For a batch of N string prompts, whatever the order in which the
    moderation calls settle, [handleBatchValidation] returns status 200
    with N results, the result at position i carries index i, the
    summary total is N and the allowed and blocked counts add up to N. *)
Theorem batch_results_keep_input_order
    (event : Event) (strs : list jsstring) (schedule : list nat) (h : History) :
  prompts_of event (map JStr strs) ->
  every_call_settles (length strs) schedule ->
  exists results n_allowed n_blocked h',
    runP schedule (handleBatchValidation event) h =
      (Some (Normal (createResponse 200 (JObj [
         (lit "success", JBool true);
         (lit "results", JArr (map json_of_result results));
         (lit "summary", JObj [
            (lit "total", JNum (number_of_nat (length strs)));
            (lit "allowed", JNum (number_of_nat n_allowed));
            (lit "blocked", JNum (number_of_nat n_blocked)) ]) ]))), h') /\
    length results = length strs /\
    (forall i r, results !! i = Some r -> result_index r = i) /\
    (n_allowed + n_blocked = length strs)%nat.
Proof.
  intros Hprompts Hsched.
  destruct (runP_handleBatchValidation event (map JStr strs) schedule h Hprompts)
    as (c & h' & Hrun & Hc); [by rewrite length_map|].
  destruct c as [results|e].
  - destruct Hc as [Hlen Hall]. rewrite length_map in Hlen.
    exists results, (length (List.filter result_allowed results)),
      (length (List.filter (fun r => negb (result_allowed r)) results)), h'.
    split; [|split; [done|split]].
    + rewrite Hrun. unfold batch_payload. by rewrite length_map.
    + intros i r Hr.
      assert (Hlt : (i < length strs)%nat)
        by (rewrite <- Hlen; by eapply lookup_lt_Some).
      destruct (lookup_lt_is_Some_2 _ _ Hlt) as [s Hs].
      destruct (Hall i (JStr s)) as (r' & o & Hr' & Ho); [by rewrite list_lookup_fmap, Hs|].
      assert (r' = r) as -> by congruence.
      by apply batch_outcome_string in Ho as [? _].
    + by rewrite List.filter_length.
  - destruct Hc as (i & p & o & Hp & Ho).
    rewrite list_lookup_fmap in Hp.
    destruct (strs !! i) as [s|]; [|done]. injection Hp as <-.
    unfold batch_outcome in Ho. done.
Qed.

(** C7. In the results of a batch of string prompts, a prompt longer than
    100 characters appears as its first 100 characters followed by "...",
    and a prompt of at most 100 characters appears as it is. *)
Theorem batch_preview_truncates_at_100
    (event : Event) (strs : list jsstring) (schedule : list nat) (h : History) :
  prompts_of event (map JStr strs) ->
  every_call_settles (length strs) schedule ->
  exists results h',
    runP schedule (handleBatchValidation event) h =
      (Some (Normal (createResponse 200 (batch_payload (map JStr strs) results))), h') /\
    forall i s, strs !! i = Some s ->
      exists r, results !! i = Some r /\
        ((100 < length s)%nat -> result_prompt r = take 100 s ++ lit "...") /\
        ((length s <= 100)%nat -> result_prompt r = s).
Proof.
  intros Hprompts Hsched.
  destruct (runP_handleBatchValidation event (map JStr strs) schedule h Hprompts)
    as (c & h' & Hrun & Hc); [by rewrite length_map|].
  destruct c as [results|e].
  - destruct Hc as [Hlen Hall]. exists results, h'. split; [done|].
    intros i s Hs.
    destruct (Hall i (JStr s)) as (r & o & Hr & Ho); [by rewrite list_lookup_fmap, Hs|].
    exists r. split; [done|].
    apply batch_outcome_string in Ho as [_ ->]. unfold substring0. split; intros Hlen'.
    + by rewrite (proj2 (Nat.ltb_lt _ _) Hlen').
    + rewrite (proj2 (Nat.ltb_ge _ _) Hlen'), app_nil_r. by apply take_ge.
  - destruct Hc as (i & p & o & Hp & Ho).
    rewrite list_lookup_fmap in Hp.
    destruct (strs !! i) as [s|]; [|done]. injection Hp as <-.
    unfold batch_outcome in Ho. done.
Qed.

(** C10. If the array of a batch request holds an element that is not a
    string, the request is answered with status 500 and the message
    "Batch validation failed", and the response carries no results: the
    task of that element faults when it builds the preview, once its
    moderation call has settled. *)
Theorem batch_with_non_string_fails
    (event : Event) (prompts : list json) (j : nat) (p : json)
    (schedule : list nat) (h : History) :
  prompts_of event prompts ->
  prompts !! j = Some p -> (forall s, p <> JStr s) ->
  j ∈ schedule ->
  exists h',
    runP schedule (handleBatchValidation event) h =
      (Some (Normal (createResponse 500 (JObj [
         (lit "success", JBool false);
         (lit "message", JStr (lit "Batch validation failed")) ]))), h').
Proof.
  intros (body & Hparse & Hprompts) Hj Hp Hsched.
  unfold handleBatchValidation.
  rewrite runP_try_catchP, runP_bindP, runP_liftP, Hparse.
  rewrite runP_bindP, runP_liftP, Hprompts.
  cbn [Array_isArray negb elements_of].
  rewrite runP_bindP, runP_await_all.
  pose proof (start_all_batch 0 prompts h) as Hts. cbn [Nat.add] in Hts.
  change (fun i => batch_callback i) with batch_callback in Hts.
  destruct (start_all (imap batch_callback prompts) h) as [ts h1]. cbn [fst snd] in *.
  destruct (Promise_all_rejects 0 prompts schedule ts h1 j p Hts Hj Hp (or_introl Hsched))
    as (e & h2 & ->).
  by eexists.
Qed.

(** C8, as the code behaves.  The router takes the method of a request
    from [httpMethod] or, when that is missing, from
    [requestContext.http.method]; the preflight test before it reads
    [httpMethod] alone.  So of the requests whose method is OPTIONS only
    those that carry it in [httpMethod] are answered with status 200 and
    the object with the single property message "OK"; the others are
    dispatched and, as no route has that method, answered with status 404
    and the list of the routes.  In both cases the handler writes the log
    line of the event and nothing else. *)
Theorem options_preflight_reads_httpMethod_alone
    (event : Event) (schedule : list nat) (h : History) :
  dispatch_method event = Some (lit "OPTIONS") ->
  exists r,
    runP schedule (handler event) h =
      (Some (Normal r), h ++ [Console (Log (lit "Event:") (ArgEvent event))]) /\
    (httpMethod event = Some (lit "OPTIONS") ->
     r = createResponse 200 (JObj [(lit "message", JStr (lit "OK"))])) /\
    (httpMethod event <> Some (lit "OPTIONS") ->
     r = createResponse 404 not_found_payload).
Proof.
  intros Hdispatch. unfold handler.
  rewrite runP_bindP, runP_await. cbn [run console_log fst snd].
  destruct (is_string (httpMethod event) "OPTIONS") eqn:Hpreflight.
  - eexists. split; [reflexivity|]. split; [done|].
    intros Hne. exfalso. apply Hne.
    unfold is_string, jsstring_eqb in Hpreflight.
    destruct (httpMethod event) as [m|]; [|done].
    apply bool_decide_eq_true_1 in Hpreflight. by subst m.
  - rewrite runP_try_catchP. fold (dispatch_method event). rewrite Hdispatch.
    replace (is_string (Some (lit "OPTIONS")) "POST") with false by (by vm_compute).
    replace (is_string (Some (lit "OPTIONS")) "GET") with false by (by vm_compute).
    cbn [andb]. eexists. split; [reflexivity|]. split; [|done].
    intros Hmethod. rewrite Hmethod in Hpreflight.
    unfold is_string, jsstring_eqb in Hpreflight.
    by rewrite bool_decide_eq_true_2 in Hpreflight.
Qed.

(** C6, as the code behaves.  Every response of the handler is built by
    [createResponse] and carries [Content-Type: application/json],
    [Access-Control-Allow-Origin: *] and
    [Access-Control-Allow-Methods: POST, GET, OPTIONS]; its
    [Access-Control-Allow-Headers] is [Content-Type] alone, without
    [Authorization]. *)
Theorem every_response_has_the_gateway_headers
    (event : Event) (schedule : list nat) (h h' : History)
    (c : Completion Response) :
  runP schedule (handler event) h = (Some c, h') ->
  exists r,
    c = Normal r /\ enveloped r /\
    lookup_header (lit "Content-Type") (response_headers r)
      = Some (lit "application/json") /\
    lookup_header (lit "Access-Control-Allow-Origin") (response_headers r)
      = Some (lit "*") /\
    lookup_header (lit "Access-Control-Allow-Methods") (response_headers r)
      = Some (lit "POST, GET, OPTIONS") /\
    lookup_header (lit "Access-Control-Allow-Headers") (response_headers r)
      = Some (lit "Content-Type").
Proof.
  intros Hrun.
  assert (Henv : exists r, c = Normal r /\ enveloped r).
  { revert Hrun. unfold handler.
    rewrite runP_bindP, runP_await. cbn [run console_log fst snd].
    destruct (is_string (httpMethod event) "OPTIONS").
    { simpl. intros [= <- _]. by eexists. }
    rewrite runP_try_catchP.
    set (path := or_else (or_else (path event) (rawPath event)) (Some (lit "/"))).
    set (method := or_else (or_else (httpMethod event)
                              (requestContext_http_method event)) (Some (lit "GET"))).
    destruct (is_string method "POST" && is_string path "/validate").
    { rewrite runP_await.
      destruct (run_handleValidation_cases event
                  (h ++ [Console (Log (lit "Event:") (ArgEvent event))]))
        as (r & calls & -> & Hr & _).
      simpl. intros [= <- _]. by exists r. }
    destruct (is_string method "POST" && is_string path "/validate-batch").
    { destruct (runP schedule (handleBatchValidation event) _)
        as [[c0|] h1] eqn:Hbatch; [|done].
      destruct (runP_handleBatchValidation_enveloped _ _ _ _ _ Hbatch) as (r & -> & Hr).
      intros [= <- _]. by exists r. }
    destruct (is_string method "GET" && is_string path "/health").
    { rewrite runP_await. simpl. intros [= <- _]. by eexists. }
    destruct (is_string method "GET" && is_string path "/config").
    { rewrite runP_await. simpl. intros [= <- _]. by eexists. }
    simpl. intros [= <- _]. by eexists. }
  destruct Henv as (r & -> & Hr). exists r. split; [done|]. split; [done|].
  destruct Hr as (code & payload & ->). by vm_compute.
Qed.

End Properties.

(** * The rest of the code *)

Section Coverage.

Context {number : Type} {host : Host number}.

Local Abbreviation json := (@json number).
Local Abbreviation value := (option json).
Local Abbreviation History := (list (@Call number)).
Local Abbreviation Prog := (@Prog number).
Local Abbreviation Proc := (@Proc number).
Local Abbreviation Task := (@Task number).

(** ** The moderation client *)

Lemma moderations_fault_log (o : Completion json) : moderations (fault_log o) = 0%nat.
Proof. unfold fault_log. by destruct (judge o). Qed.

(** X1. [validatePrompt] calls the moderation service exactly once, first
    of all and with the command of its prompt, never a second time
    whatever the answer or the fault, and never calls the downstream
    service. *)
Theorem validatePrompt_calls_once (prompt : json) (h : History) :
  exists v rest,
    run (validatePrompt prompt) h =
      (Normal v, h ++ BedrockSend (guardrail_command prompt) :: rest) /\
    quiet rest.
Proof.
  rewrite run_validatePrompt. eexists _, _. split; [reflexivity|].
  split; [apply forwards_fault_log|apply moderations_fault_log].
Qed.

(** X2. [validatePrompt] approves every answer that is not [null] and
    whose [action] is not the string GUARDRAIL_INTERVENED, also one
    without an [action]: the verdict is allowed with the reason
    "Content approved", and nothing is written to the console. *)
Theorem validatePrompt_approves_other_actions (prompt : json) (h : History) :
  not_intervened (moderation_outcome h prompt) ->
  run (validatePrompt prompt) h =
  (Normal {| allowed := true; reason := lit "Content approved";
             details := None; verdict_error := None |},
   h ++ [BedrockSend (guardrail_command prompt)]).
Proof.
  intros (response & action & Ho & Haction & Hno).
  rewrite run_validatePrompt, Ho. unfold verdict_of, fault_log, judge. simpl.
  by rewrite Haction; simpl; rewrite Hno.
Qed.

(** X3. An intervention whose [assessments] is neither missing, [null]
    nor an array is reported as a fault of the service: the verdict is
    blocked with the reason "Validation service unavailable" and
    carries no details. *)
Theorem validatePrompt_malformed_assessments
    (prompt response assessments : json) (h : History) :
  moderation_outcome h prompt = Normal response ->
  getProp response "action" = Normal (Some (JStr (lit "GUARDRAIL_INTERVENED"))) ->
  getProp response "assessments" = Normal (Some assessments) ->
  assessments <> JNull -> Array_isArray (Some assessments) = false ->
  exists v h',
    run (validatePrompt prompt) h = (Normal v, h') /\
    allowed v = false /\
    reason v = lit "Validation service unavailable" /\
    details v = None.
Proof.
  intros Ho Haction Hass Hnull Harr.
  rewrite run_validatePrompt, Ho. eexists _, _. split; [reflexivity|].
  unfold verdict_of, judge. simpl. rewrite Haction. simpl.
  rewrite Hass. simpl.
  destruct assessments; simpl; try done.
Qed.

(** The descriptor of an assessment built by [assessment_of]. *)
Lemma assessment_descriptor_of (entry : option jsstring * option jsstring) :
  assessment_descriptor (assessment_of entry) = Normal (descriptor_of entry).
Proof.
  destruct entry as [[t|] [[|c cs]|]]; unfold assessment_of, descriptor_of,
    assessment_descriptor; cbn [fst snd app getProp lookup_prop];
    unfold jsstring_eqb;
    repeat (first [rewrite bool_decide_eq_true_2 by done
                  |rewrite bool_decide_eq_false_2 by done]);
    cbn [cbind ToString ToString_json lookup_prop getProp truthy];
    unfold jsstring_eqb;
    repeat (first [rewrite bool_decide_eq_true_2 by done
                  |rewrite bool_decide_eq_false_2 by done]);
    cbn [cbind ToString ToString_json negb default]; reflexivity.
Qed.

Lemma cmapM_descriptors (entries : list (option jsstring * option jsstring)) :
  cmapM assessment_descriptor (map assessment_of entries) =
  Normal (map descriptor_of entries).
Proof.
  induction entries as [|entry entries IH]; [done|].
  cbn [map cmapM]. rewrite assessment_descriptor_of, IH. reflexivity.
Qed.

Lemma descriptor_of_nonempty (entry : option jsstring * option jsstring) :
  descriptor_of entry <> [].
Proof.
  unfold descriptor_of. intros H.
  apply app_eq_nil in H as [_ H]. by apply app_eq_nil in H as [H _].
Qed.

Lemma join_nonempty (sep : jsstring) (p : jsstring) (parts : list jsstring) :
  p <> [] -> join sep (p :: parts) <> [].
Proof.
  intros Hp. destruct parts as [|q parts]; simpl; [done|].
  intros H. by apply app_eq_nil in H as [H _].
Qed.

(** X4. The reason of an intervention lists one descriptor per
    assessment, separated by a comma and a space: the [type] of the
    assessment, printed as "undefined" when it has none, a colon, and
    the [type] of its [guardrailCoverage], printed as "unknown" when it
    is missing or empty.  Without any assessment the reason is
    "Policy violation". *)
Theorem reasons_list_the_assessments
    (entries : list (option jsstring * option jsstring)) :
  reasons_of (Some (JArr (map assessment_of entries))) =
  Normal (match entries with
          | [] => lit "Policy violation"
          | _ :: _ => join (lit ", ") (map descriptor_of entries)
          end).
Proof.
  unfold reasons_of. rewrite cmapM_descriptors.
  destruct entries as [|entry entries]; [reflexivity|].
  cbn [cbind map].
  pose proof (join_nonempty (lit ", ") (descriptor_of entry)
                (map descriptor_of entries) (descriptor_of_nonempty entry)) as Hne.
  destruct (join (lit ", ") (descriptor_of entry :: map descriptor_of entries));
    [done|reflexivity].
Qed.

(** ** The forwarding client *)

Lemma forwardToVideoService_request (event : Event) :
  forwardToVideoService event =
  try_catch
    (bind (await_fetch (videoServiceUrl MODERATION_CONFIG) (forwarded_request event))
       (fun response =>
        bind (lift (text response)) (fun responseData =>
        Ret (createResponse (status response)
               match JSON_parse responseData with
               | Normal data => data
               | Thrown _ => JObj [(lit "message", JStr responseData)]
               end))))
    (fun error =>
       bind (console_error (lit "Error forwarding to video service:") (ArgError error))
         (fun _ => Ret bad_gateway)).
Proof.
  unfold forwardToVideoService, forwarded_request.
  by destruct (authorization event) as [[|c token]|].
Qed.

Lemma run_forward (event : Event) (h : History) :
  let sent := Fetch (videoServiceUrl MODERATION_CONFIG) (forwarded_request event) in
  run (forwardToVideoService event) h =
  match downstream_outcome h event with
  | Normal response =>
      match text response with
      | Normal responseData =>
          (Normal (createResponse (status response)
                     match JSON_parse responseData with
                     | Normal data => data
                     | Thrown _ => JObj [(lit "message", JStr responseData)]
                     end), h ++ [sent])
      | Thrown e =>
          (Normal bad_gateway,
           h ++ [sent; Console (Error (lit "Error forwarding to video service:")
                                  (ArgError e))])
      end
  | Thrown e =>
      (Normal bad_gateway,
       h ++ [sent; Console (Error (lit "Error forwarding to video service:")
                              (ArgError e))])
  end.
Proof.
  intros sent. rewrite forwardToVideoService_request.
  rewrite run_try_catch, run_bind, run_await_fetch.
  unfold downstream_outcome. fold sent.
  destruct (fetch (h ++ [sent]) _ _) as [response|e]; simpl.
  - rewrite run_bind, run_lift.
    destruct (text response) as [responseData|e]; simpl; [done|].
    by rewrite <- app_assoc.
  - by rewrite <- app_assoc.
Qed.

(** X5. The forwarding client makes one request and no other call to a
    service, also when the request fails: a POST to the configured
    address with the body of the inbound request as it came, the header
    [Content-Type: application/json], and the inbound [authorization]
    header as [Authorization] exactly when it is present and not empty.
    No other inbound header is sent on. *)
Theorem forward_sends_the_inbound_request (event : Event) (h : History) :
  exists r rest,
    run (forwardToVideoService event) h =
      (Normal r,
       h ++ Fetch (lit "https://your-video-service.com/generate")
              {| init_method := lit "POST";
                 init_headers :=
                   (lit "Content-Type", lit "application/json") ::
                   match authorization event with
                   | Some (c :: token) => [(lit "Authorization", c :: token)]
                   | _ => []
                   end;
                 init_body := body event |} :: rest) /\
    quiet rest.
Proof.
  rewrite run_forward. cbv zeta.
  destruct (downstream_outcome h event) as [response|e].
  - destruct (text response) as [responseData|e].
    + eexists _, []. split; [reflexivity|]. by split.
    + eexists _, [_]. split; [reflexivity|]. by split.
  - eexists _, [_]. split; [reflexivity|]. by split.
Qed.

(** X6. When the request to the downstream service fails, or reading the
    body of its answer fails, the forwarding client answers 502 with the
    fixed payload of an unavailable video service; the fault itself only
    goes to the console. *)
Theorem forward_failure_is_502 (event : Event) (h : History) (e : JsError) :
  downstream_outcome h event = Thrown e \/
  (exists response, downstream_outcome h event = Normal response /\
                    text response = Thrown e) ->
  run (forwardToVideoService event) h =
  (Normal (createResponse 502 (JObj [
     (lit "success", JBool false);
     (lit "message", JStr (lit "Video service unavailable"));
     (lit "error", JStr (lit "Failed to connect to video generation service")) ])),
   h ++ [Fetch (videoServiceUrl MODERATION_CONFIG) (forwarded_request event);
         Console (Error (lit "Error forwarding to video service:") (ArgError e))]).
Proof.
  rewrite run_forward. cbv zeta.
  intros [->|(response & -> & ->)]; reflexivity.
Qed.

(** X7. When the body of the downstream answer is JSON that the runtime
    prints back as it reads it, the gateway relays the answer verbatim:
    the same status, whatever it is, and the same body. *)
Theorem forward_relays_json_verbatim
    (event : Event) (h : History) (response : FetchResponse)
    (responseData : jsstring) (data : json) :
  downstream_outcome h event = Normal response ->
  text response = Normal responseData ->
  JSON_parse responseData = Normal data ->
  JSON_stringify data = responseData ->
  exists r h',
    run (forwardToVideoService event) h = (Normal r, h') /\
    statusCode r = status response /\
    response_body r = responseData.
Proof.
  intros Ho Htext Hparse Hprint.
  rewrite run_forward, Ho, Htext, Hparse. cbv zeta.
  eexists _, _. split; [reflexivity|]. by split.
Qed.

(** X8. When the body of the downstream answer is not JSON, the gateway
    keeps the status and wraps the text as the [message] of an object;
    it does not fail. *)
Theorem forward_wraps_text
    (event : Event) (h : History) (response : FetchResponse)
    (responseData : jsstring) (e : JsError) :
  downstream_outcome h event = Normal response ->
  text response = Normal responseData ->
  JSON_parse responseData = Thrown e ->
  run (forwardToVideoService event) h =
  (Normal (createResponse (status response)
             (JObj [(lit "message", JStr responseData)])),
   h ++ [Fetch (videoServiceUrl MODERATION_CONFIG) (forwarded_request event)]).
Proof.
  intros Ho Htext Hparse.
  by rewrite run_forward, Ho, Htext, Hparse.
Qed.

(** ** The single-mode pipeline *)


(** X10. A request without a body, or with an empty one, is read as the
    empty object and so answered with status 400 for a missing prompt,
    not with a fault. *)
Theorem handleValidation_absent_body (event : Event) (h : History) :
  body event = None \/ body event = Some [] ->
  JSON_parse (lit "{}") = Normal (JObj []) ->
  run (handleValidation event) h =
  (Normal (createResponse 400 (JObj [
     (lit "success", JBool false);
     (lit "message",
      JStr (lit "Invalid request: prompt is required and must be a string")) ])), h).
Proof.
  intros Hbody Hparse.
  apply (non_string_prompt_is_rejected event h (JObj []) None); [|done|done].
  unfold request_body. by destruct Hbody as [->| ->].
Qed.

(** X11. Whatever the request, the single-mode pipeline returns a
    response, calls the moderation service at most once, and calls the
    downstream service at most once and only after a moderation call
    that allowed a non-empty string prompt. *)
Theorem handleValidation_call_discipline (event : Event) (h : History) :
  exists r calls,
    run (handleValidation event) h = (Normal r, h ++ calls) /\
    (moderations calls <= 1)%nat /\
    (forwards calls = 0%nat \/
     (forwards calls = 1%nat /\ moderations calls = 1%nat /\
      exists s, prompt_of event s /\ s <> [] /\
                allowed (verdict_of (moderation_outcome h (JStr s))) = true)).
Proof.
  destruct (JSON_parse (request_body event)) as [body|e] eqn:Hparse.
  2: { unfold handleValidation.
       rewrite run_try_catch, run_bind, run_lift, Hparse. simpl.
       eexists _, [_]. split; [reflexivity|]. cbv. auto. }
  destruct (getProp body "prompt") as [prompt|e] eqn:Hprompt.
  2: { unfold handleValidation.
       rewrite run_try_catch, run_bind, run_lift, Hparse.
       rewrite run_bind, run_lift, Hprompt. simpl.
       eexists _, [_]. split; [reflexivity|]. cbv. auto. }
  destruct (negb (truthy prompt) || negb (String.eqb (typeof prompt) "string"))
    eqn:Hguard.
  { unfold handleValidation.
    rewrite run_try_catch, run_bind, run_lift, Hparse.
    rewrite run_bind, run_lift, Hprompt, Hguard. simpl.
    eexists _, []. rewrite app_nil_r. split; [reflexivity|]. cbv. auto. }
  assert (Hstring : exists s, prompt = Some (JStr s) /\ s <> []).
  { destruct prompt as [[|b|n|s|items|props]|].
    1, 5, 6, 7: discriminate Hguard.
    1, 2: cbn [typeof] in Hguard; by rewrite orb_true_r in Hguard.
    exists s. split; [done|]. intros ->.
    cbn [truthy] in Hguard. unfold jsstring_eqb in Hguard.
    by rewrite bool_decide_eq_true_2 in Hguard by done. }
  destruct Hstring as (s & -> & Hne).
  assert (Hof : prompt_of event s) by (by exists body).
  rewrite (run_handleValidation event s h Hof Hne). cbv zeta.
  set (o := moderation_outcome h (JStr s)).
  set (v := verdict_of o).
  set (sent := [BedrockSend (guardrail_command (JStr s))] ++ fault_log o).
  assert (Hsent : forwards sent = 0%nat /\ moderations sent = 1%nat).
  { unfold sent. by rewrite forwards_app, moderations_app, forwards_fault_log,
      moderations_fault_log. }
  destruct Hsent as [Hf Hm].
  destruct (allowed v) eqn:Hallowed.
  - set (line := log_line (h ++ sent) s (lit "ALLOWED") (reason v)).
    destruct (run_forwardToVideoService event ((h ++ sent) ++ [line]))
      as (r & after & -> & Hone & Hnone & _).
    exists r, (sent ++ [line] ++ after).
    split; [by rewrite <- !app_assoc|].
    rewrite !forwards_app, !moderations_app, Hf, Hm, Hone, Hnone. cbn.
    split; [lia|]. right. split; [done|]. split; [done|]. by exists s.
  - set (line := log_line (h ++ sent) s (lit "BLOCKED") (reason v)).
    exists (blocked_response v), (sent ++ [line]).
    split; [by rewrite <- !app_assoc|].
    rewrite !forwards_app, !moderations_app, Hf, Hm. cbn. split; [lia|]. by left.
Qed.

(** The details of a verdict are the assessments of the service, which
    are missing, [null] or an array. *)
Lemma verdict_details (o : Completion json) :
  details (verdict_of o) = None \/ details (verdict_of o) = Some JNull \/
  exists items, details (verdict_of o) = Some (JArr items).
Proof.
  unfold verdict_of, judge.
  destruct o as [response|e]; simpl; [|by left].
  destruct (getProp response "action") as [action|e]; simpl; [|by left].
  destruct (is_intervened action); simpl; [|by left].
  destruct (getProp response "assessments") as [assessments|e]; simpl; [|by left].
  destruct (reasons_of assessments) as [reasons|e] eqn:Hreasons; simpl; [|by left].
  destruct assessments as [[|b|n|s|items|props]|]; try discriminate Hreasons; eauto.
Qed.

(** X12. How the single-mode pipeline uses a blocked verdict of
    [validatePrompt]: it writes one log line and answers 422 with the
    fixed policy message, the reason of the verdict, and the details of
    the verdict or an empty array when there are none. *)
Theorem handleValidation_reports_the_verdict
    (event : Event) (s : jsstring) (h h1 : History) (v : Verdict) :
  prompt_of event s -> s <> [] ->
  run (validatePrompt (JStr s)) h = (Normal v, h1) ->
  allowed v = false ->
  run (handleValidation event) h =
  (Normal (createResponse 422 (JObj [
     (lit "success", JBool false);
     (lit "allowed", JBool false);
     (lit "message", JStr (lit "Content violates our community guidelines"));
     (lit "details", JObj [
        (lit "reason", JStr (reason v));
        (lit "assessments",
         match details v with
         | Some (JArr items) => JArr items
         | _ => JArr []
         end) ]) ])),
   h1 ++ [log_line h1 s (lit "BLOCKED") (reason v)]).
Proof.
  intros Hprompt Hne Hrun Hblocked.
  rewrite run_validatePrompt in Hrun. injection Hrun as <- <-.
  rewrite (run_handleValidation event s h Hprompt Hne). cbv zeta.
  rewrite Hblocked. unfold blocked_response. rewrite <- !app_assoc.
  f_equal. f_equal. f_equal. f_equal.
  destruct (verdict_details (moderation_outcome h (JStr s)))
    as [->|[->|[items ->]]]; reflexivity.
Qed.

(** ** Batch validation *)

Lemma quiet_nil : quiet ([] : History).
Proof. by split. Qed.

Lemma quiet_app (xs ys : History) : quiet xs -> quiet ys -> quiet (xs ++ ys).
Proof.
  intros [Hf Hm] [Hf' Hm']. split.
  - by rewrite forwards_app, Hf, Hf'.
  - by rewrite moderations_app, Hm, Hm'.
Qed.

Lemma quiet_console (l : @ConsoleLine number) : quiet [Console l].
Proof. by split. Qed.

Lemma Sync_lift {A} (c : Completion A) : Sync (lift c : Prog A).
Proof. destruct c; constructor. Qed.

Lemma Sync_bind {A B} (p : Prog A) (f : A -> Prog B) :
  Sync p -> (forall a, Sync (f a)) -> Sync (bind p f).
Proof. intros Hp Hf. induction Hp; simpl; auto; by constructor. Qed.

Lemma Sync_try_catch {A} (p : Prog A) (handler : JsError -> Prog A) :
  Sync p -> (forall e, Sync (handler e)) -> Sync (try_catch p handler).
Proof. intros Hp Hh. induction Hp; simpl; auto; by constructor. Qed.

(** A program without [await] settles at once and reaches no service. *)
Lemma advance_Sync {A} (p : Prog A) (h : History) :
  Sync p -> exists c calls, advance p h = (Settled c, h ++ calls) /\ quiet calls.
Proof.
  intros Hp. revert h.
  induction Hp as [a|e|l k Hk IH|k Hk IH|k Hk IH]; intros h; simpl.
  - exists (Normal a), []. rewrite app_nil_r. split; [done|apply quiet_nil].
  - exists (Thrown e), []. rewrite app_nil_r. split; [done|apply quiet_nil].
  - destruct (IH (h ++ [Console l])) as (c & calls & -> & Hq).
    exists c, (Console l :: calls). rewrite <- app_assoc. split; [done|].
    by apply (quiet_app [Console l] calls); [apply quiet_console|].
  - apply IH.
  - apply IH.
Qed.

(** The batch callback is one moderation call followed by code without
    [await]. *)
Lemma batch_callback_shape (index : nat) (prompt : json) :
  exists k,
    batch_callback index prompt = AwaitSend (guardrail_command prompt) k /\
    forall o, Sync (k o).
Proof.
  unfold batch_callback, validatePrompt. simpl. eexists. split; [reflexivity|].
  intros o. cbv beta. apply Sync_bind.
  - apply Sync_try_catch.
    + apply Sync_bind; [apply Sync_lift|]. intros response.
      apply Sync_bind; [apply Sync_lift|]. intros action.
      destruct (is_intervened action); [|constructor].
      apply Sync_bind; [apply Sync_lift|]. intros assessments.
      apply Sync_bind; [apply Sync_lift|]. intros reasons. constructor.
    + intros e. repeat constructor.
  - intros v. apply Sync_bind; [apply Sync_lift|]. intros shown. constructor.
Qed.

Lemma start_all_batch_calls (offset : nat) (prompts : list json) (h : History) :
  exists ts calls,
    start_all (imap (fun i => batch_callback (offset + i)) prompts) h = (ts, h ++ calls) /\
    forwards calls = 0%nat /\ moderations calls = length prompts /\
    Forall one_shot ts.
Proof.
  revert offset h. induction prompts as [|p prompts IH]; intros offset h.
  - exists [], []. rewrite app_nil_r. by repeat split.
  - cbn [imap start_all].
    destruct (batch_callback_shape (offset + 0) p) as (k & -> & Hk).
    cbn [advance].
    assert (Hext : imap ((fun i => batch_callback (offset + i)) ∘ S) prompts =
                   imap (fun i => batch_callback (S offset + i)) prompts).
    { apply imap_ext. intros i x _. simpl. f_equal. lia. }
    rewrite Hext.
    destruct (IH (S offset) (h ++ [BedrockSend (guardrail_command p)]))
      as (ts & calls & -> & Hf & Hm & Hts).
    exists (WaitingSend (guardrail_command p) k :: ts),
      (BedrockSend (guardrail_command p) :: calls).
    rewrite <- app_assoc. split; [done|].
    split; [exact Hf|]. split; [cbn; unfold moderations in Hm; by rewrite Hm|].
    constructor; [|done]. left. by exists (guardrail_command p), k.
Qed.

Lemma resume_one_shot {A} (t : Task A) (h : History) :
  one_shot t ->
  exists c calls, resume t h = (Settled c, h ++ calls) /\ quiet calls.
Proof.
  intros [(c & k & -> & Hk)|(c & ->)]; simpl.
  - apply advance_Sync, Hk.
  - exists c, []. rewrite app_nil_r. split; [done|apply quiet_nil].
Qed.

(** Joining tasks that wait on the moderation service reaches no service
    again, in whatever order their calls settle. *)
Lemma Promise_all_quiet {A} (schedule : list nat) (ts : list (Task A)) (h : History) :
  Forall one_shot ts ->
  exists res calls, Promise_all schedule ts h = (res, h ++ calls) /\ quiet calls.
Proof.
  revert ts h. induction schedule as [|i rest IH]; intros ts h Hts;
    rewrite Promise_all_unfold;
    (destruct (first_rejection ts);
     [eexists _, []; rewrite app_nil_r; split; [done|apply quiet_nil]|]);
    (destruct (all_fulfilled ts);
     [eexists _, []; rewrite app_nil_r; split; [done|apply quiet_nil]|]).
  - eexists _, []. rewrite app_nil_r. split; [done|apply quiet_nil].
  - destruct (ts !! i) as [t|] eqn:Hi; [|by apply IH].
    assert (Ht : one_shot t) by (by eapply Forall_lookup_1).
    destruct (resume_one_shot t h Ht) as (c & calls & Hres & Hq).
    rewrite Hres. cbn [fst snd].
    destruct (IH (<[i := Settled c]> ts) (h ++ calls)) as (res & calls' & -> & Hq').
    { apply Forall_insert; [done|]. right. by exists c. }
    exists res, (calls ++ calls'). rewrite <- app_assoc. split; [done|].
    by apply quiet_app.
Qed.

(** The calls of the batch handler: none to the downstream service, and
    one moderation call per element when the request carries an array. *)
Lemma runP_handleBatchValidation_calls (event : Event) (schedule : list nat)
    (h : History) :
  exists res calls,
    runP schedule (handleBatchValidation event) h = (res, h ++ calls) /\
    forwards calls = 0%nat /\
    moderations calls =
      match JSON_parse (request_body event) with
      | Normal body =>
          match getProp body "prompts" with
          | Normal prompts => length (elements_of prompts)
          | Thrown _ => 0%nat
          end
      | Thrown _ => 0%nat
      end.
Proof.
  unfold handleBatchValidation.
  rewrite runP_try_catchP, runP_bindP, runP_liftP.
  destruct (JSON_parse (request_body event)) as [body|e].
  2: { simpl. eexists _, [_]. split; [reflexivity|]. by split. }
  rewrite runP_bindP, runP_liftP.
  destruct (getProp body "prompts") as [prompts|e].
  2: { simpl. eexists _, [_]. split; [reflexivity|]. by split. }
  destruct (Array_isArray prompts) eqn:Harr; cbn [negb].
  2: { simpl. eexists _, []. rewrite app_nil_r. split; [reflexivity|].
       split; [done|]. by destruct prompts as [[| | | | |]|]. }
  rewrite runP_bindP, runP_await_all.
  destruct (start_all_batch_calls 0 (elements_of prompts) h)
    as (ts & calls & Hstart & Hf & Hm & Hts).
  cbn [Nat.add] in Hstart.
  change (fun i => batch_callback i) with (@batch_callback number host) in Hstart.
  rewrite Hstart. cbn [fst snd].
  destruct (Promise_all_quiet schedule ts (h ++ calls) Hts)
    as (res & calls' & -> & Hf' & Hm').
  destruct res as [[results|e]|]; simpl.
  - exists (Some (Normal (createResponse 200
              (batch_payload (elements_of prompts) results)))), (calls ++ calls').
    rewrite <- app_assoc. split; [done|].
    by rewrite forwards_app, moderations_app, Hf, Hf', Hm, Hm', Nat.add_0_r.
  - eexists _, (calls ++ calls' ++ [_]).
    rewrite <- !app_assoc. split; [reflexivity|].
    by rewrite !forwards_app, !moderations_app, Hf, Hf', Hm, Hm'; cbn; rewrite !Nat.add_0_r.
  - exists None, (calls ++ calls'). rewrite <- app_assoc. split; [done|].
    by rewrite forwards_app, moderations_app, Hf, Hf', Hm, Hm', Nat.add_0_r.
Qed.

(** X13. Batch validation never calls the downstream service: whatever
    the request, the verdicts and the order in which the moderation
    calls settle, the run holds no [fetch]. *)
Theorem batch_never_forwards (event : Event) (schedule : list nat) (h : History) :
  exists res calls,
    runP schedule (handleBatchValidation event) h = (res, h ++ calls) /\
    forwards calls = 0%nat.
Proof.
  destruct (runP_handleBatchValidation_calls event schedule h)
    as (res & calls & Hrun & Hf & _).
  by exists res, calls.
Qed.

(** X14. For an array of N elements the batch handler calls the
    moderation service exactly N times, once per element and whether or
    not the element is a string; the calls are all made before any of
    them settles, so the count does not depend on the answers or on the
    order in which they arrive. *)
Theorem batch_moderates_each_element_once
    (event : Event) (prompts : list json) (schedule : list nat) (h : History) :
  prompts_of event prompts ->
  exists res calls,
    runP schedule (handleBatchValidation event) h = (res, h ++ calls) /\
    moderations calls = length prompts.
Proof.
  intros (body & Hparse & Hprompts).
  destruct (runP_handleBatchValidation_calls event schedule h)
    as (res & calls & Hrun & _ & Hm).
  rewrite Hparse, Hprompts in Hm. by exists res, calls.
Qed.

(** X15. A batch request whose [prompts] is missing or not an array is
    answered with status 400 and no service is called. *)
Theorem batch_without_array_is_400
    (event : Event) (body : json) (prompts : value)
    (schedule : list nat) (h : History) :
  JSON_parse (request_body event) = Normal body ->
  getProp body "prompts" = Normal prompts ->
  Array_isArray prompts = false ->
  runP schedule (handleBatchValidation event) h =
  (Some (Normal (createResponse 400 (JObj [
     (lit "success", JBool false);
     (lit "message", JStr (lit "Invalid request: prompts must be an array")) ]))), h).
Proof.
  intros Hparse Hprompts Harr. unfold handleBatchValidation.
  rewrite runP_try_catchP, runP_bindP, runP_liftP, Hparse.
  rewrite runP_bindP, runP_liftP, Hprompts, Harr. reflexivity.
Qed.


Lemma verdict_of_allowed_reason (o : Completion json) :
  allowed (verdict_of o) = true -> reason (verdict_of o) = lit "Content approved".
Proof.
  unfold verdict_of, judge.
  destruct o as [response|e]; simpl; [|done].
  destruct (getProp response "action") as [action|e]; simpl; [|done].
  destruct (is_intervened action); simpl; [|done].
  destruct (getProp response "assessments") as [assessments|e]; simpl; [|done].
  by destruct (reasons_of assessments).
Qed.

(** X17. In the results of a batch of string prompts every allowed
    result has the reason "Content approved" and every blocked result
    has a reason of at least one character. *)
Theorem batch_results_carry_the_verdicts
    (event : Event) (strs : list jsstring) (schedule : list nat) (h : History) :
  prompts_of event (map JStr strs) ->
  every_call_settles (length strs) schedule ->
  exists results h',
    runP schedule (handleBatchValidation event) h =
      (Some (Normal (createResponse 200 (batch_payload (map JStr strs) results))), h') /\
    forall r, r ∈ results ->
      if result_allowed r then result_reason r = lit "Content approved"
      else result_reason r <> [].
Proof.
  intros Hprompts Hsched.
  destruct (runP_handleBatchValidation event (map JStr strs) schedule h Hprompts)
    as (c & h' & Hrun & Hc); [by rewrite length_map|].
  destruct c as [results|e].
  - destruct Hc as [Hlen Hall]. exists results, h'. split; [done|].
    intros r Hr. apply list_elem_of_lookup in Hr as [i Hi].
    assert (Hlt : (i < length (map JStr strs))%nat)
      by (rewrite <- Hlen; by eapply lookup_lt_Some).
    destruct (lookup_lt_is_Some_2 _ _ Hlt) as [p Hp].
    destruct (Hall i p Hp) as (r' & o & Hr' & Ho).
    assert (r' = r) as -> by congruence.
    rewrite list_lookup_fmap in Hp.
    destruct (strs !! i) as [s|]; [|done]. injection Hp as <-.
    unfold batch_outcome in Ho. simpl in Ho. injection Ho as <-. simpl.
    destruct (allowed (verdict_of o)) eqn:Hallowed.
    + by apply verdict_of_allowed_reason.
    + by apply verdict_of_blocked_reason.
  - destruct Hc as (i & p & o & Hp & Ho).
    rewrite list_lookup_fmap in Hp.
    destruct (strs !! i) as [s|]; [|done]. injection Hp as <-.
    unfold batch_outcome in Ho. done.
Qed.

(** X18. The preview of a prompt is at most 103 characters long, starts
    with the same 100 characters as the prompt, and is its own
    preview. *)
Theorem preview_is_bounded_and_stable (s : jsstring) :
  exists shown,
    preview (JStr s : json) = Normal shown /\
    (length shown <= 103)%nat /\
    take 100 shown = take 100 s /\
    preview (JStr shown : json) = Normal shown.
Proof.
  unfold preview, substring0. eexists. split; [reflexivity|].
  assert (Hdots : length (lit "...") = 3%nat) by reflexivity.
  destruct (100 <? length s)%nat eqn:Hlong.
  - apply Nat.ltb_lt in Hlong.
    assert (Hlen : length (take 100 s) = 100%nat) by (rewrite length_take; lia).
    split; [rewrite length_app, Hlen, Hdots; lia|].
    assert (Htake : take 100 (take 100 s ++ lit "...") = take 100 s)
      by (by apply take_app_length').
    split; [done|].
    rewrite Htake.
    assert (Hlong' : (100 <? length (take 100 s ++ lit "..."))%nat = true)
      by (apply Nat.ltb_lt; rewrite length_app, Hlen, Hdots; lia).
    by rewrite Hlong'.
  - apply Nat.ltb_ge in Hlong. rewrite !app_nil_r.
    assert (Hall : take 100 s = s) by (by apply take_ge).
    rewrite !Hall.
    split; [lia|]. split; [done|].
    by rewrite (proj2 (Nat.ltb_ge _ _) Hlong), app_nil_r.
Qed.

(** ** The router *)

(** Decide the comparisons of the router on a known method and path. *)
Ltac decide_routes :=
  repeat match goal with
         | |- context [is_string (Some (lit ?a)) ?b] =>
             let v := eval vm_compute in (is_string (Some (lit a)) b) in
             replace (is_string (Some (lit a)) b) with v by (vm_compute; reflexivity)
         end.

Lemma not_options (event : Event) :
  httpMethod event <> Some (lit "OPTIONS") ->
  is_string (httpMethod event) "OPTIONS" = false.
Proof.
  intros Hne. unfold is_string, jsstring_eqb.
  destruct (httpMethod event) as [m|]; [|done].
  apply bool_decide_eq_false_2. congruence.
Qed.

(** The handler after its preflight test: the log line of the event,
    then the dispatch, whose own [catch] only sees what a route throws. *)
Lemma runP_handler_dispatch (event : Event) (schedule : list nat) (h : History) :
  httpMethod event <> Some (lit "OPTIONS") ->
  runP schedule (handler event) h =
  match
    runP schedule
      (if is_string (dispatch_method event) "POST"
          && is_string (dispatch_path event) "/validate"
       then await (handleValidation event)
       else if is_string (dispatch_method event) "POST"
               && is_string (dispatch_path event) "/validate-batch"
       then handleBatchValidation event
       else if is_string (dispatch_method event) "GET"
               && is_string (dispatch_path event) "/health"
       then await handleHealth
       else if is_string (dispatch_method event) "GET"
               && is_string (dispatch_path event) "/config"
       then await handleConfig
       else Return (createResponse 404 not_found_payload))
      (h ++ [event_line event])
  with
  | (Some (Normal r), h') => (Some (Normal r), h')
  | (Some (Thrown e), h') =>
      (Some (Normal (createResponse 500 (JObj [
         (lit "success", JBool false);
         (lit "message", JStr (lit "Internal server error")) ]))),
       h' ++ [Console (Error (lit "Handler Error:") (ArgError e))])
  | (None, h') => (None, h')
  end.
Proof.
  intros Hne. unfold handler.
  rewrite runP_bindP, runP_await. cbn [run console_log fst snd].
  rewrite (not_options event Hne), runP_try_catchP.
  fold (dispatch_path event). fold (dispatch_method event). unfold event_line.
  destruct (runP schedule _ _) as [[[r|e]|] h']; reflexivity.
Qed.

(** X19. A request that is not a preflight and matches none of the four
    routes is answered with status 404 and the list of the four routes;
    only the log line of the event is written. *)
Theorem unknown_route_is_404 (event : Event) (schedule : list nat) (h : History) :
  httpMethod event <> Some (lit "OPTIONS") ->
  known_route event = false ->
  runP schedule (handler event) h =
  (Some (Normal (createResponse 404 (JObj [
     (lit "success", JBool false);
     (lit "message", JStr (lit "Not found"));
     (lit "availableEndpoints", JArr [
        JStr (lit "POST /validate - Validate and forward to video service");
        JStr (lit "POST /validate-batch - Batch validation (returns results only)");
        JStr (lit "GET /health - Service health check");
        JStr (lit "GET /config - View current configuration") ]) ]))),
   h ++ [Console (Log (lit "Event:") (ArgEvent event))]).
Proof.
  intros Hne Hroute. rewrite (runP_handler_dispatch event schedule h Hne).
  unfold known_route in Hroute.
  apply orb_false_elim in Hroute as [Hroute ->].
  apply orb_false_elim in Hroute as [Hroute ->].
  apply orb_false_elim in Hroute as [-> ->].
  reflexivity.
Qed.

(** X20. The preflight test reads [httpMethod] alone: a request that
    carries the method OPTIONS only in [requestContext.http.method] is
    dispatched like any other and, as no route has that method,
    answered with status 404. *)
Theorem options_outside_httpMethod_is_404
    (event : Event) (schedule : list nat) (h : History) :
  httpMethod event = None ->
  requestContext_http_method event = Some (lit "OPTIONS") ->
  exists r,
    runP schedule (handler event) h =
      (Some (Normal r), h ++ [Console (Log (lit "Event:") (ArgEvent event))]) /\
    statusCode r = 404.
Proof.
  intros Hmethod Hcontext.
  rewrite (runP_handler_dispatch event schedule h) by (by rewrite Hmethod).
  assert (Hdispatch : dispatch_method event = Some (lit "OPTIONS")).
  { unfold dispatch_method. rewrite Hmethod, Hcontext. reflexivity. }
  rewrite Hdispatch. decide_routes. cbn [andb].
  by eexists.
Qed.

(** X21. For POST /validate the handler is the single-mode pipeline run
    after the log line of the event: it returns the response of
    [handleValidation] and makes its calls. *)
Theorem handler_runs_the_pipeline (event : Event) (schedule : list nat) (h : History) :
  httpMethod event <> Some (lit "OPTIONS") ->
  dispatch_method event = Some (lit "POST") ->
  dispatch_path event = Some (lit "/validate") ->
  runP schedule (handler event) h =
  (Some (run (handleValidation event) (h ++ [event_line event])).1,
   (run (handleValidation event) (h ++ [event_line event])).2).
Proof.
  intros Hne Hmethod Hpath.
  rewrite (runP_handler_dispatch event schedule h Hne), Hmethod, Hpath.
  decide_routes. cbn [andb]. rewrite runP_await.
  destruct (run_handleValidation_cases event (h ++ [event_line event]))
    as (r & calls & -> & _).
  reflexivity.
Qed.

(** X22. For POST /validate-batch the handler is the batch handler run
    after the log line of the event. *)
Theorem handler_runs_the_batch (event : Event) (schedule : list nat) (h : History) :
  httpMethod event <> Some (lit "OPTIONS") ->
  dispatch_method event = Some (lit "POST") ->
  dispatch_path event = Some (lit "/validate-batch") ->
  runP schedule (handler event) h =
  runP schedule (handleBatchValidation event) (h ++ [event_line event]).
Proof.
  intros Hne Hmethod Hpath.
  rewrite (runP_handler_dispatch event schedule h Hne), Hmethod, Hpath.
  decide_routes. cbn [andb].
  destruct (runP schedule (handleBatchValidation event) _) as [[c|] h'] eqn:Hrun;
    [|done].
  by destruct (runP_handleBatchValidation_enveloped _ _ _ _ _ Hrun) as (r & -> & _).
Qed.

(** X23. GET /health is answered with status 200, the status "healthy",
    the time of the clock and the identifier and version of the
    guardrail; GET /config with status 200 and the identifier, the
    version, the logging flag and the two messages.  Neither calls a
    service. *)
Theorem health_and_config_report_the_configuration
    (event : Event) (schedule : list nat) (h : History) :
  httpMethod event <> Some (lit "OPTIONS") ->
  dispatch_method event = Some (lit "GET") ->
  dispatch_path event = Some (lit "/health") \/
  dispatch_path event = Some (lit "/config") ->
  runP schedule (handler event) h =
  (Some (Normal (createResponse 200
     (if is_string (dispatch_path event) "/health" then
        JObj [
          (lit "status", JStr (lit "healthy"));
          (lit "timestamp", JStr (Date_toISOString (h ++ [event_line event])));
          (lit "config", JObj [
             (lit "guardrailId", JStr (lit "your-guardrail-id"));
             (lit "version", JStr (lit "DRAFT")) ]) ]
      else
        JObj [
          (lit "guardrailId", JStr (lit "your-guardrail-id"));
          (lit "guardrailVersion", JStr (lit "DRAFT"));
          (lit "loggingEnabled", JBool true);
          (lit "messages", JObj [
             (lit "blocked", JStr (lit "Content violates our community guidelines"));
             (lit "error", JStr (lit "Unable to validate content at this time")) ]) ]))),
   h ++ [event_line event]).
Proof.
  intros Hne Hmethod [Hpath|Hpath];
    rewrite (runP_handler_dispatch event schedule h Hne), Hmethod, Hpath;
    decide_routes; cbn [andb]; rewrite runP_await; reflexivity.
Qed.

End Coverage.

Section DummyCoverage.

Context {number : Type} {runtime : Dummy.Runtime number}.

Local Abbreviation json := (@json number).
Local Abbreviation Trace := (list (@Dummy.Step number)).

Lemma slept_app (xs ys : Trace) : Dummy.slept (xs ++ ys) = Dummy.slept xs + Dummy.slept ys.
Proof.
  induction xs as [|x xs IH]; simpl; [done|]. destruct x; rewrite IH; lia.
Qed.

Lemma destructure_prompt_reads (body : json) (prompt : option json) :
  getProp body "prompt" = Normal prompt ->
  Dummy.destructure_prompt body = Normal prompt.
Proof. by destruct body. Qed.

(** X24. The dummy service does not check the prompt: for every request
    that is not a preflight and whose body is a JSON value other than
    [null], it sleeps 1000 milliseconds once and answers 200 with a
    [data] object that carries the [prompt] of the body as it came,
    whatever its type, and no [prompt] when the body has none. *)
Theorem dummy_echoes_the_prompt
    (event : Event) (body : json) (prompt : option json) (t : Trace) :
  httpMethod event <> Some (lit "OPTIONS") ->
  Dummy.parse_json (request_body event) = Normal body ->
  getProp body "prompt" = Normal prompt ->
  exists r steps data,
    Dummy.handler event t = (r, t ++ steps) /\
    statusCode r = 200 /\
    Dummy.slept steps = 1000 /\
    response_body r =
      Dummy.print_json (JObj [
        (lit "success", JBool true);
        (lit "message", JStr (lit "Video generated successfully"));
        (lit "data", JObj data) ]) /\
    lookup_prop (lit "prompt") data = prompt.
Proof.
  intros Hne Hparse Hprompt. unfold Dummy.handler.
  rewrite (not_options event Hne), Hparse. cbn [cbind].
  rewrite (destructure_prompt_reads body prompt Hprompt).
  cbv zeta. unfold Dummy.Date_now_text. cbv iota beta.
  eexists _, _, _. rewrite <- !app_assoc. split; [reflexivity|].
  split; [reflexivity|]. split; [reflexivity|]. split; [reflexivity|].
  destruct prompt as [j|]; by vm_compute.
Qed.

(** X25. When the body of the request is not JSON, or is the JSON
    [null], the dummy service answers 500 at once: it writes the fault it
    caught, neither sleeps nor reads the clock, and the [error] of the
    response is the message of that very fault, the one [JSON.parse]
    threw or the one of destructuring [null]. *)
Theorem dummy_unreadable_body_is_500 (event : Event) (e : JsError) (t : Trace) :
  httpMethod event <> Some (lit "OPTIONS") ->
  Dummy.parse_json (request_body event) = Thrown e \/
  (Dummy.parse_json (request_body event) = Normal JNull /\ e = Dummy.destructure_null) ->
  Dummy.handler event t =
    (Dummy.createResponse 500 (JObj [
       (lit "success", JBool false);
       (lit "message", JStr (lit "Video generation failed"));
       (lit "error", JStr (error_message e)) ]),
     t ++ [Dummy.Wrote (Log (lit "Dummy Video Service - Event:") (ArgEvent event));
           Dummy.Wrote (Error (lit "Dummy Video Service Error:") (ArgError e))]).
Proof.
  intros Hne [Hparse|[Hparse ->]]; unfold Dummy.handler;
    rewrite (not_options event Hne), Hparse; cbn [cbind Dummy.destructure_prompt];
    by rewrite <- app_assoc.
Qed.

(** X26. Every response of the dummy service, on every path, allows the
    headers Content-Type and Authorization. *)
Theorem dummy_allows_authorization (event : Event) (t : Trace) :
  lookup_header (lit "Access-Control-Allow-Headers")
    (response_headers (Dummy.handler event t).1)
  = Some (lit "Content-Type,Authorization").
Proof.
  unfold Dummy.handler, Dummy.Date_now_text.
  destruct (is_string (httpMethod event) "OPTIONS"); [by vm_compute|].
  destruct (cbind _ _); by vm_compute.
Qed.

(** X27. The dummy service answers a preflight with status 200 at once:
    it neither reads the body nor sleeps. *)
Theorem dummy_preflight_is_immediate (event : Event) (t : Trace) :
  httpMethod event = Some (lit "OPTIONS") ->
  Dummy.handler event t =
  (Dummy.createResponse 200 (JObj [(lit "message", JStr (lit "OK"))]),
   t ++ [Dummy.Wrote (Log (lit "Dummy Video Service - Event:") (ArgEvent event))]).
Proof.
  intros Hmethod. unfold Dummy.handler. rewrite Hmethod.
  unfold is_string, jsstring_eqb. by rewrite bool_decide_eq_true_2.
Qed.

End DummyCoverage.

(** ** The claims on concrete requests *)

#[local] Existing Instance Demo.host.

Lemma blocked_prompt_is_not_forwarded_witness :
  exists r calls,
    run (host := Demo.host) (handleValidation Demo.attack_request) [] =
      (Normal r, [] ++ calls) /\
    statusCode r = 422 /\
    forwards calls = 0%nat.
Proof.
  apply (blocked_prompt_is_not_forwarded (host := Demo.host)
           Demo.attack_request (lit "attack") []).
  - exists (JObj [(lit "prompt", JStr (lit "attack"))]). by vm_compute.
  - done.
  - eexists. split; by vm_compute.
Defined.

Lemma moderation_fault_fails_closed_witness :
  (exists v h1,
     run (host := Demo.host) (validatePrompt (JStr (lit "timeout"))) [] = (Normal v, h1) /\
     allowed v = false /\
     reason v = lit "Validation service unavailable") /\
  (exists r h2,
     run (host := Demo.host) (handleValidation Demo.timeout_request) [] = (Normal r, h2) /\
     statusCode r = 422 /\
     ~ (500 <= statusCode r)).
Proof.
  apply (moderation_fault_fails_closed (host := Demo.host)
           Demo.timeout_request (lit "timeout") []
           (mkError (lit "TimeoutError") (lit "Request timed out"))).
  - exists (JObj [(lit "prompt", JStr (lit "timeout"))]). by vm_compute.
  - done.
  - by vm_compute.
Defined.

Lemma approved_prompt_is_forwarded_once_witness :
  exists before r after,
    run (host := Demo.host) (forwardToVideoService Demo.hello_request) ([] ++ before) =
      (Normal r, [] ++ before ++ after) /\
    run (host := Demo.host) (handleValidation Demo.hello_request) [] =
      (Normal r, [] ++ before ++ after) /\
    forwards before = 0%nat /\
    forwards (before ++ after) = 1%nat.
Proof.
  apply (approved_prompt_is_forwarded_once (host := Demo.host)
           Demo.hello_request (lit "hello") []).
  - exists (JObj [(lit "prompt", JStr (lit "hello"))]). by vm_compute.
  - done.
  - eexists _, _. split; [by vm_compute|]. split; by vm_compute.
Defined.

Lemma empty_prompt_reported_as_missing_witness :
  run (host := Demo.host) (handleValidation Demo.empty_request) [] =
  (Normal (bad_request (host := Demo.host)
             "Invalid request: prompt is required and must be a string"), []).
Proof.
  apply (empty_prompt_reported_as_missing (host := Demo.host) Demo.empty_request []).
  exists (JObj [(lit "prompt", JStr [])]). by vm_compute.
Defined.

Lemma demo_schedule_settles : every_call_settles 3 [2; 0; 1]%nat.
Proof.
  intros i Hi. rewrite !elem_of_cons.
  destruct i as [|[|[|i]]]; [auto|auto|auto|lia].
Defined.

Lemma batch_results_keep_input_order_witness :
  exists results n_allowed n_blocked h',
    runP (host := Demo.host) [2; 0; 1]%nat (handleBatchValidation Demo.batch_request) [] =
      (Some (Normal (createResponse (host := Demo.host) 200 (JObj [
         (lit "success", JBool true);
         (lit "results", JArr (map (json_of_result (host := Demo.host)) results));
         (lit "summary", JObj [
            (lit "total", JNum (Z.of_nat (length Demo.batch_prompts)));
            (lit "allowed", JNum (Z.of_nat n_allowed));
            (lit "blocked", JNum (Z.of_nat n_blocked)) ]) ]))), h') /\
    length results = length Demo.batch_prompts /\
    (forall i r, results !! i = Some r -> result_index r = i) /\
    (n_allowed + n_blocked = length Demo.batch_prompts)%nat.
Proof.
  apply (batch_results_keep_input_order (host := Demo.host)
           Demo.batch_request Demo.batch_prompts [2; 0; 1]%nat []).
  - exists (JObj [(lit "prompts", JArr (map JStr Demo.batch_prompts))]). by vm_compute.
  - exact demo_schedule_settles.
Defined.

Lemma batch_preview_truncates_at_100_witness :
  exists results h',
    runP (host := Demo.host) [2; 0; 1]%nat (handleBatchValidation Demo.batch_request) [] =
      (Some (Normal (createResponse (host := Demo.host) 200
         (batch_payload (host := Demo.host) (map JStr Demo.batch_prompts) results))), h') /\
    forall i s, Demo.batch_prompts !! i = Some s ->
      exists r, results !! i = Some r /\
        ((100 < length s)%nat -> result_prompt r = take 100 s ++ lit "...") /\
        ((length s <= 100)%nat -> result_prompt r = s).
Proof.
  apply (batch_preview_truncates_at_100 (host := Demo.host)
           Demo.batch_request Demo.batch_prompts [2; 0; 1]%nat []).
  - exists (JObj [(lit "prompts", JArr (map JStr Demo.batch_prompts))]). by vm_compute.
  - exact demo_schedule_settles.
Defined.

Lemma batch_with_non_string_fails_witness :
  exists h',
    runP (host := Demo.host) [2; 0; 1]%nat (handleBatchValidation Demo.mixed_request) [] =
      (Some (Normal (createResponse (host := Demo.host) 500 (JObj [
         (lit "success", JBool false);
         (lit "message", JStr (lit "Batch validation failed")) ]))), h').
Proof.
  apply (batch_with_non_string_fails (host := Demo.host)
           Demo.mixed_request [JStr (lit "hello"); JNum 7; JStr (lit "timeout")]
           1%nat (JNum 7) [2; 0; 1]%nat []).
  - exists (JObj [(lit "prompts",
                   JArr [JStr (lit "hello"); JNum 7; JStr (lit "timeout")])]).
    by vm_compute.
  - reflexivity.
  - done.
  - rewrite !elem_of_cons. auto.
Defined.

Lemma options_preflight_reads_httpMethod_alone_witness :
  exists r,
    runP (host := Demo.host) [] (handler Lab.options_v2_request) [] =
      (Some (Normal r),
       [] ++ [Console (Log (lit "Event:") (ArgEvent Lab.options_v2_request))]) /\
    (httpMethod Lab.options_v2_request = Some (lit "OPTIONS") ->
     r = createResponse (host := Demo.host) 200 (JObj [(lit "message", JStr (lit "OK"))])) /\
    (httpMethod Lab.options_v2_request <> Some (lit "OPTIONS") ->
     r = createResponse (host := Demo.host) 404 not_found_payload).
Proof.
  apply (options_preflight_reads_httpMethod_alone (host := Demo.host)
           Lab.options_v2_request [] []).
  reflexivity.
Defined.

Lemma every_response_has_the_gateway_headers_witness :
  exists r,
    Normal (createResponse (host := Demo.host) 404 not_found_payload) = Normal r /\
    enveloped (host := Demo.host) r /\
    lookup_header (lit "Content-Type") (response_headers r)
      = Some (lit "application/json") /\
    lookup_header (lit "Access-Control-Allow-Origin") (response_headers r)
      = Some (lit "*") /\
    lookup_header (lit "Access-Control-Allow-Methods") (response_headers r)
      = Some (lit "POST, GET, OPTIONS") /\
    lookup_header (lit "Access-Control-Allow-Headers") (response_headers r)
      = Some (lit "Content-Type").
Proof.
  apply (every_response_has_the_gateway_headers (host := Demo.host)
           Demo.unknown_request [] []
           [Console (Log (lit "Event:") (ArgEvent Demo.unknown_request))]).
  by vm_compute.
Defined.

(** ** The rest of the code on concrete requests *)

Lemma validatePrompt_approves_other_actions_witness :
  run (validatePrompt (JStr (lit "hello"))) [] =
  (Normal {| allowed := true; reason := lit "Content approved";
             details := None; verdict_error := None |},
   [] ++ [BedrockSend (guardrail_command (JStr (lit "hello")))]).
Proof.
  apply (validatePrompt_approves_other_actions (host := Demo.host)
           (JStr (lit "hello")) []).
  eexists _, _. split; [by vm_compute|]. split; by vm_compute.
Defined.

Lemma validatePrompt_malformed_assessments_witness :
  exists v h',
    run (host := Lab.odd_host) (validatePrompt (host := Lab.odd_host) (JStr (lit "hello"))) []
      = (Normal v, h') /\
    allowed v = false /\
    reason v = lit "Validation service unavailable" /\
    details v = None.
Proof.
  apply (validatePrompt_malformed_assessments (host := Lab.odd_host)
           (JStr (lit "hello"))
           (JObj [(lit "action", JStr (lit "GUARDRAIL_INTERVENED"));
                  (lit "assessments", JStr (lit "blocked"))])
           (JStr (lit "blocked")) []).
  - reflexivity.
  - by vm_compute.
  - by vm_compute.
  - done.
  - reflexivity.
Defined.

Lemma forward_failure_is_502_witness :
  run (host := Lab.unreachable_host)
    (forwardToVideoService (host := Lab.unreachable_host) Demo.hello_request) [] =
  (Normal (createResponse (host := Lab.unreachable_host) 502 (JObj [
     (lit "success", JBool false);
     (lit "message", JStr (lit "Video service unavailable"));
     (lit "error", JStr (lit "Failed to connect to video generation service")) ])),
   [] ++ [Fetch (videoServiceUrl MODERATION_CONFIG) (forwarded_request Demo.hello_request);
          Console (Error (lit "Error forwarding to video service:")
                     (ArgError (mkError (lit "TypeError") (lit "fetch failed"))))]).
Proof.
  apply (forward_failure_is_502 (host := Lab.unreachable_host) Demo.hello_request []).
  left. reflexivity.
Defined.

Lemma forward_relays_json_verbatim_witness :
  exists r h',
    run (forwardToVideoService Demo.hello_request) [] = (Normal r, h') /\
    statusCode r = 200 /\
    response_body r =
      Demo.json_text "{'success':true,'video_url':'https://example.com/v.mp4'}".
Proof.
  apply (forward_relays_json_verbatim (host := Demo.host) Demo.hello_request []
           {| status := 200;
              text := Normal (Demo.json_text
                "{'success':true,'video_url':'https://example.com/v.mp4'}") |}
           (Demo.json_text "{'success':true,'video_url':'https://example.com/v.mp4'}")
           (JObj [(lit "success", JBool true);
                  (lit "video_url", JStr (lit "https://example.com/v.mp4"))])).
  - reflexivity.
  - reflexivity.
  - by vm_compute.
  - by vm_compute.
Defined.

Lemma forward_wraps_text_witness :
  run (host := Lab.text_host)
    (forwardToVideoService (host := Lab.text_host) Demo.hello_request) [] =
  (Normal (createResponse (host := Lab.text_host) 503
             (JObj [(lit "message", JStr (lit "Service Unavailable"))])),
   [] ++ [Fetch (videoServiceUrl MODERATION_CONFIG) (forwarded_request Demo.hello_request)]).
Proof.
  apply (forward_wraps_text (host := Lab.text_host) Demo.hello_request []
           {| status := 503; text := Normal (lit "Service Unavailable") |}
           (lit "Service Unavailable") Demo.SyntaxError).
  - reflexivity.
  - reflexivity.
  - by vm_compute.
Defined.


Lemma handleValidation_absent_body_witness :
  run (handleValidation Lab.bodyless_request) [] =
  (Normal (createResponse 400 (JObj [
     (lit "success", JBool false);
     (lit "message",
      JStr (lit "Invalid request: prompt is required and must be a string")) ])), []).
Proof.
  apply (handleValidation_absent_body (host := Demo.host) Lab.bodyless_request []).
  - by left.
  - by vm_compute.
Defined.

Lemma handleValidation_reports_the_verdict_witness :
  exists v h1,
    run (validatePrompt (JStr (lit "attack"))) [] = (Normal v, h1) /\
    run (handleValidation Demo.attack_request) [] =
    (Normal (createResponse 422 (JObj [
       (lit "success", JBool false);
       (lit "allowed", JBool false);
       (lit "message", JStr (lit "Content violates our community guidelines"));
       (lit "details", JObj [
          (lit "reason", JStr (reason v));
          (lit "assessments",
           match details v with
           | Some (JArr items) => JArr items
           | _ => JArr []
           end) ]) ])),
     h1 ++ [log_line h1 (lit "attack") (lit "BLOCKED") (reason v)]).
Proof.
  eexists _, _. split; [by vm_compute|].
  apply (handleValidation_reports_the_verdict (host := Demo.host)
           Demo.attack_request (lit "attack") []).
  - exists (JObj [(lit "prompt", JStr (lit "attack"))]). by vm_compute.
  - done.
  - by vm_compute.
  - reflexivity.
Defined.

Lemma batch_moderates_each_element_once_witness :
  exists res calls,
    runP [2; 0; 1]%nat (handleBatchValidation Demo.mixed_request) [] = (res, [] ++ calls) /\
    moderations calls = 3%nat.
Proof.
  apply (batch_moderates_each_element_once (host := Demo.host) Demo.mixed_request
           [JStr (lit "hello"); JNum 7; JStr (lit "timeout")] [2; 0; 1]%nat []).
  exists (JObj [(lit "prompts",
                 JArr [JStr (lit "hello"); JNum 7; JStr (lit "timeout")])]).
  by vm_compute.
Defined.

Lemma batch_without_array_is_400_witness :
  runP [] (handleBatchValidation Lab.text_batch_request) [] =
  (Some (Normal (createResponse 400 (JObj [
     (lit "success", JBool false);
     (lit "message", JStr (lit "Invalid request: prompts must be an array")) ]))), []).
Proof.
  apply (batch_without_array_is_400 (host := Demo.host) Lab.text_batch_request
           (JObj [(lit "prompts", JStr (lit "hello"))]) (Some (JStr (lit "hello"))) [] []).
  - by vm_compute.
  - by vm_compute.
  - reflexivity.
Defined.


Lemma batch_results_carry_the_verdicts_witness :
  exists results h',
    runP [2; 0; 1]%nat (handleBatchValidation Demo.batch_request) [] =
      (Some (Normal (createResponse 200
         (batch_payload (map JStr Demo.batch_prompts) results))), h') /\
    forall r, r ∈ results ->
      if result_allowed r then result_reason r = lit "Content approved"
      else result_reason r <> [].
Proof.
  apply (batch_results_carry_the_verdicts (host := Demo.host)
           Demo.batch_request Demo.batch_prompts [2; 0; 1]%nat []).
  - exists (JObj [(lit "prompts", JArr (map JStr Demo.batch_prompts))]). by vm_compute.
  - exact demo_schedule_settles.
Defined.

Lemma unknown_route_is_404_witness :
  runP [] (handler Demo.unknown_request) [] =
  (Some (Normal (createResponse 404 (JObj [
     (lit "success", JBool false);
     (lit "message", JStr (lit "Not found"));
     (lit "availableEndpoints", JArr [
        JStr (lit "POST /validate - Validate and forward to video service");
        JStr (lit "POST /validate-batch - Batch validation (returns results only)");
        JStr (lit "GET /health - Service health check");
        JStr (lit "GET /config - View current configuration") ]) ]))),
   [] ++ [Console (Log (lit "Event:") (ArgEvent Demo.unknown_request))]).
Proof.
  apply (unknown_route_is_404 (host := Demo.host) Demo.unknown_request [] []).
  - by vm_compute.
  - by vm_compute.
Defined.

Lemma options_outside_httpMethod_is_404_witness :
  exists r,
    runP [] (handler Lab.options_v2_request) [] =
      (Some (Normal r),
       [] ++ [Console (Log (lit "Event:") (ArgEvent Lab.options_v2_request))]) /\
    statusCode r = 404.
Proof.
  apply (options_outside_httpMethod_is_404 (host := Demo.host)
           Lab.options_v2_request [] []); reflexivity.
Defined.

Lemma handler_runs_the_pipeline_witness :
  runP [] (handler Demo.hello_request) [] =
  (Some (run (handleValidation Demo.hello_request) ([] ++ [event_line Demo.hello_request])).1,
   (run (handleValidation Demo.hello_request) ([] ++ [event_line Demo.hello_request])).2).
Proof.
  apply (handler_runs_the_pipeline (host := Demo.host) Demo.hello_request [] []).
  - by vm_compute.
  - by vm_compute.
  - by vm_compute.
Defined.

Lemma handler_runs_the_batch_witness :
  runP [2; 0; 1]%nat (handler Demo.batch_request) [] =
  runP [2; 0; 1]%nat (handleBatchValidation Demo.batch_request)
    ([] ++ [event_line Demo.batch_request]).
Proof.
  apply (handler_runs_the_batch (host := Demo.host) Demo.batch_request [2; 0; 1]%nat []).
  - by vm_compute.
  - by vm_compute.
  - by vm_compute.
Defined.

Lemma health_and_config_report_the_configuration_witness :
  runP [] (handler Lab.health_request) [] =
  (Some (Normal (createResponse 200
     (if is_string (dispatch_path Lab.health_request) "/health" then
        JObj [
          (lit "status", JStr (lit "healthy"));
          (lit "timestamp",
           JStr (Date_toISOString ([] ++ [event_line Lab.health_request])));
          (lit "config", JObj [
             (lit "guardrailId", JStr (lit "your-guardrail-id"));
             (lit "version", JStr (lit "DRAFT")) ]) ]
      else
        JObj [
          (lit "guardrailId", JStr (lit "your-guardrail-id"));
          (lit "guardrailVersion", JStr (lit "DRAFT"));
          (lit "loggingEnabled", JBool true);
          (lit "messages", JObj [
             (lit "blocked", JStr (lit "Content violates our community guidelines"));
             (lit "error", JStr (lit "Unable to validate content at this time")) ]) ]))),
   [] ++ [event_line Lab.health_request]).
Proof.
  apply (health_and_config_report_the_configuration (host := Demo.host)
           Lab.health_request [] []).
  - by vm_compute.
  - by vm_compute.
  - left. by vm_compute.
Defined.

Lemma dummy_echoes_the_prompt_witness :
  exists r steps data,
    Dummy.handler (runtime := Dummy.demo_runtime) Lab.generate_request [] = (r, [] ++ steps) /\
    statusCode r = 200 /\
    Dummy.slept steps = 1000 /\
    response_body r =
      Demo.stringify (JObj [
        (lit "success", JBool true);
        (lit "message", JStr (lit "Video generated successfully"));
        (lit "data", JObj data) ]) /\
    lookup_prop (lit "prompt") data = Some (JStr (lit "a sunset")).
Proof.
  apply (dummy_echoes_the_prompt (runtime := Dummy.demo_runtime) Lab.generate_request
           (JObj [(lit "prompt", JStr (lit "a sunset"))])
           (Some (JStr (lit "a sunset"))) []).
  - by vm_compute.
  - by vm_compute.
  - by vm_compute.
Defined.

Lemma dummy_unreadable_body_is_500_witness :
  Dummy.handler (runtime := Dummy.demo_runtime) Lab.null_request [] =
    (Dummy.createResponse (runtime := Dummy.demo_runtime) 500 (JObj [
       (lit "success", JBool false);
       (lit "message", JStr (lit "Video generation failed"));
       (lit "error",
        JStr (lit "Cannot destructure property 'prompt' of 'body' as it is null.")) ]),
     [] ++ [Dummy.Wrote (Log (lit "Dummy Video Service - Event:") (ArgEvent Lab.null_request));
            Dummy.Wrote (Error (lit "Dummy Video Service Error:")
                           (ArgError Dummy.destructure_null))]).
Proof.
  apply (dummy_unreadable_body_is_500 (runtime := Dummy.demo_runtime)
           Lab.null_request Dummy.destructure_null []).
  - by vm_compute.
  - right. split; [by vm_compute|reflexivity].
Defined.

Lemma dummy_preflight_is_immediate_witness :
  Dummy.handler (runtime := Dummy.demo_runtime) Demo.options_request [] =
  (Dummy.createResponse (runtime := Dummy.demo_runtime) 200
     (JObj [(lit "message", JStr (lit "OK"))]),
   [] ++ [Dummy.Wrote (Log (lit "Dummy Video Service - Event:")
                         (ArgEvent Demo.options_request))]).
Proof.
  apply (dummy_preflight_is_immediate (runtime := Dummy.demo_runtime)
           Demo.options_request []).
  reflexivity.
Defined.
